(** * Conversation memory and retrieval orchestration of the WhatsApp chatbot

    A shallow embedding of [app/services/memory_service.py] (the class
    [MemoryService]) and of [app/services/chatbot.py] (the class
    [ChatbotService]), with the properties of the session store, of the
    confidence score and of [process_message].

    Conventions of the embedding:
    - a Python method that mutates [self] is a computation in the monad
      [Py], a state monad over [World] whose results are [Ok v] or [Raise]
      (an exception); state changes made before an exception are kept, as
      in Python;
    - [try: ... except Exception: ...] is [try_except];
    - [datetime.now()] reads the field [clock] of the world, in
      microseconds; the clock moves between calls and not during one: the
      methods of the store are synchronous, and [process_message] reads
      the clock only after its last [await];
    - the vector store and the chat model are functions supplied by the
      caller, and every call to them is appended to the field [calls];
    - [float] is IEEE binary64, given by [spec_float] at precision 53;
    - [str] is [string]; [lower], [split] and [strip] are the ASCII ones;
    - logging is not modelled. *)

From Stdlib Require Import ZArith String Ascii List Bool Lia.
From Stdlib Require Import Floats.
From stdpp Require Import base option list gmap strings.

Import ListNotations.
Local Open Scope string_scope.
Local Open Scope Z_scope.

(** ** Exceptions and the monad of methods *)

Inductive result (A : Type) : Type :=
| Ok (a : A)
| Raise.

Arguments Ok {A} a.
Arguments Raise {A}.

Module PyMonad.

Section Monad.
Context {W : Type}.

Definition Py (A : Type) : Type := W -> result A * W.

Definition ret {A} (a : A) : Py A := fun w => (Ok a, w).

Definition raise {A} : Py A := fun w => (Raise, w).

Definition bind {A B} (m : Py A) (k : A -> Py B) : Py B :=
  fun w =>
    match m w with
    | (Ok a, w') => k a w'
    | (Raise, w') => (Raise, w')
    end.

(** [try: body except Exception: handler]. *)
Definition try_except {A} (body handler : Py A) : Py A :=
  fun w =>
    match body w with
    | (Ok a, w') => (Ok a, w')
    | (Raise, w') => handler w'
    end.

Definition gets {A} (f : W -> A) : Py A := fun w => (Ok (f w), w).

Definition modify (f : W -> W) : Py unit := fun w => (Ok tt, f w).

(** A call that may raise, lifted from its outcome. *)
Definition lift_result {A} (r : result A) : Py A := fun w => (r, w).

Definition when (b : bool) (m : Py unit) : Py unit :=
  if b then m else ret tt.

(** [for x in xs: body x]. *)
Fixpoint for_each {A} (xs : list A) (body : A -> Py unit) : Py unit :=
  match xs with
  | [] => ret tt
  | x :: xs' => bind (body x) (fun _ => for_each xs' body)
  end.
End Monad.

Arguments Py : clear implicits.

Declare Scope py_scope.
Delimit Scope py_scope with py.

Notation "x <- c1 ;; c2" := (bind c1 (fun x => c2))
  (at level 100, c1 at next level, right associativity) : py_scope.
Notation "c1 ;; c2" := (bind c1 (fun _ => c2))
  (at level 100, right associativity) : py_scope.

End PyMonad.

Import PyMonad.
Local Open Scope py_scope.

(** ** Strings: the methods of [str] the services use *)

Module PyStr.

(** Whitespace of [str.split()] and [str.strip()] among ASCII characters:
    tab, line feed, vertical tab, form feed, carriage return, the four
    separators 28 to 31, and space. *)
Definition isspace (c : ascii) : bool :=
  let n := N_of_ascii c in
  ((9 <=? n) && (n <=? 13) || (28 <=? n) && (n <=? 32))%N.

Definition lower_char (c : ascii) : ascii :=
  let n := N_of_ascii c in
  if ((65 <=? n) && (n <=? 90))%N then ascii_of_N (n + 32) else c.

(** [s.lower()]. *)
Fixpoint lower (s : string) : string :=
  match s with
  | EmptyString => EmptyString
  | String c s' => String (lower_char c) (lower s')
  end.

(** [split_acc cur s]: the tokens of [s], where [cur] holds the characters
    of the token being read, last one first. *)
Fixpoint split_acc (cur : list ascii) (s : string) : list string :=
  let flush (rest : list string) :=
    match cur with
    | [] => rest
    | _ => string_of_list_ascii (rev cur) :: rest
    end in
  match s with
  | EmptyString => flush []
  | String c s' =>
      if isspace c then flush (split_acc [] s')
      else split_acc (c :: cur) s'
  end.

(** [s.split()]: the maximal runs of non-whitespace characters. *)
Definition split (s : string) : list string := split_acc [] s.

Fixpoint lstrip (s : string) : string :=
  match s with
  | EmptyString => EmptyString
  | String c s' => if isspace c then lstrip s' else s
  end.

Definition rstrip (s : string) : string :=
  string_of_list_ascii
    (rev (list_ascii_of_string
            (lstrip (string_of_list_ascii (rev (list_ascii_of_string s)))))).

(** [s.strip()]. *)
Definition strip (s : string) : string := rstrip (lstrip s).

(** [sep.join(parts)]. *)
Fixpoint join (sep : string) (parts : list string) : string :=
  match parts with
  | [] => ""
  | [p] => p
  | p :: rest => p ++ sep ++ join sep rest
  end.

(** The line feed and the double quote, as one-character strings. *)
Definition nl : string := String (ascii_of_nat 10) EmptyString.
Definition dquote : string := String (ascii_of_nat 34) EmptyString.

End PyStr.

(** ** Data model ([app/models.py], [app/config.py]) *)

(** The two memory settings of [Settings]; both are unconstrained [int]s
    read from the environment (defaults 20 and 1800 seconds). *)
Record Settings : Type := mkSettings {
  max_conversation_history : Z;
  conversation_timeout : Z
}.

Definition default_settings : Settings :=
  {| max_conversation_history := 20; conversation_timeout := 1800 |}.

(** The messages held by langchain's [ConversationBufferMemory]. *)
Inductive BaseMessage : Type :=
| HumanMessage (content : string)
| AIMessage (content : string).

Record ConversationBufferMemory : Type := mkBuffer {
  chat_memory : list BaseMessage
}.

(** One entry of [ConversationState.messages]: the dictionary with keys
    ["type"], ["content"] and ["timestamp"]. *)
Record Message : Type := mkMessage {
  msg_type : string;
  msg_content : string;
  msg_timestamp : Z
}.

Record ConversationState : Type := mkState {
  user_id : string;
  messages : list Message;
  last_activity : Z;
  session_id : option string
}.

Record MemoryService : Type := mkMemory {
  conversations : gmap string ConversationBufferMemory;
  conversation_states : gmap string ConversationState
}.

(** [langchain_core.documents.Document]. *)
Record Document : Type := mkDocument {
  page_content : string;
  metadata : gmap string string
}.

(** A call made to an external collaborator. *)
Inductive ExternalCall : Type :=
| RetrieverCall (query : string) (k : nat)
| GeneratorCall (prompt : string).

Record World : Type := mkWorld {
  memory_service : MemoryService;
  clock : Z;
  calls : list ExternalCall
}.

Definition empty_memory : MemoryService :=
  {| conversations := ∅; conversation_states := ∅ |}.

Definition initial_world (now : Z) : World :=
  {| memory_service := empty_memory; clock := now; calls := [] |}.

Definition set_memory (f : MemoryService -> MemoryService) (w : World) : World :=
  {| memory_service := f (memory_service w); clock := clock w; calls := calls w |}.

Definition set_conversations
    (f : gmap string ConversationBufferMemory -> gmap string ConversationBufferMemory)
    (m : MemoryService) : MemoryService :=
  {| conversations := f (conversations m);
     conversation_states := conversation_states m |}.

Definition set_conversation_states
    (f : gmap string ConversationState -> gmap string ConversationState)
    (m : MemoryService) : MemoryService :=
  {| conversations := conversations m;
     conversation_states := f (conversation_states m) |}.

(** The clock moves between calls, never inside one. *)
Definition set_clock (now : Z) (w : World) : World :=
  {| memory_service := memory_service w; clock := now; calls := calls w |}.

Definition log_call (c : ExternalCall) (w : World) : World :=
  {| memory_service := memory_service w; clock := clock w;
     calls := calls w ++ [c] |}.

Definition log_calls (cs : list ExternalCall) (w : World) : World :=
  {| memory_service := memory_service w; clock := clock w;
     calls := calls w ++ cs |}.

Definition microseconds_per_second : Z := 1000000.

(** [datetime.now()]. *)
Definition datetime_now : Py World Z := gets clock.

(** [key in d] for a dictionary. *)
Definition has_key {V} (key : string) (d : gmap string V) : bool :=
  match d !! key with Some _ => true | None => false end.

(** [l[start:]] for a Python list: a negative [start] counts from the
    end, and both ends are clamped to the list. *)
Definition slice_from {A} (start : Z) (l : list A) : list A :=
  let n := Z.of_nat (length l) in
  let s := if start <? 0 then Z.max 0 (start + n) else Z.min start n in
  drop (Z.to_nat s) l.

(** ** The session store ([app/services/memory_service.py]) *)

(** What [get_or_create_memory] returns: the buffer object stored under a
    user, which later calls mutate in place, or a fresh buffer that no
    dictionary refers to. *)
Inductive MemoryRef : Type :=
| Stored (user : string)
| Fresh.

Section MemoryService.
Variable settings : Settings.

Definition human_entry (content : string) (now : Z) : Message :=
  {| msg_type := "human"; msg_content := content; msg_timestamp := now |}.

Definition ai_entry (content : string) (now : Z) : Message :=
  {| msg_type := "ai"; msg_content := content; msg_timestamp := now |}.

Definition update_buffer (user : string)
    (f : ConversationBufferMemory -> ConversationBufferMemory) : Py World unit :=
  modify (set_memory (set_conversations (alter f user))).

Definition update_state (user : string)
    (f : ConversationState -> ConversationState) : Py World unit :=
  modify (set_memory (set_conversation_states (alter f user))).

(** [memory.chat_memory.add_message(m)] through a reference. *)
Definition buffer_add (memory : MemoryRef) (m : BaseMessage) : Py World unit :=
  match memory with
  | Stored user =>
      update_buffer user (fun b => {| chat_memory := chat_memory b ++ [m] |})
  | Fresh => ret tt
  end.

Definition append_message (m : Message) (st : ConversationState) : ConversationState :=
  {| user_id := user_id st; messages := messages st ++ [m];
     last_activity := last_activity st; session_id := session_id st |}.

Definition set_messages (ms : list Message) (st : ConversationState) : ConversationState :=
  {| user_id := user_id st; messages := ms;
     last_activity := last_activity st; session_id := session_id st |}.

Definition set_last_activity (now : Z) (st : ConversationState) : ConversationState :=
  {| user_id := user_id st; messages := messages st;
     last_activity := now; session_id := session_id st |}.

(** [_is_conversation_active]: [time_diff.total_seconds() <
    conversation_timeout], with the difference in microseconds.
    [total_seconds()] is that difference divided by [10^6], rounded to a
    float; for a timeout below [2^33] seconds the rounding cannot reach the
    timeout from below, so the test is the integer one. *)
Definition _is_conversation_active (user : string) : Py World bool :=
  try_except
    (st <- gets (fun w => conversation_states (memory_service w) !! user) ;;
     match st with
     | None => ret false
     | Some state =>
         now <- datetime_now ;;
         ret (now - last_activity state
              <? conversation_timeout settings * microseconds_per_second)
     end)
    (ret false).

Definition _cleanup_conversation (user : string) : Py World unit :=
  try_except
    (in_conversations <- gets (fun w => has_key user (conversations (memory_service w))) ;;
     when in_conversations
       (modify (set_memory (set_conversations (delete user)))) ;;
     in_states <- gets (fun w => has_key user (conversation_states (memory_service w))) ;;
     when in_states
       (modify (set_memory (set_conversation_states (delete user)))))
    (ret tt).

Definition get_or_create_memory (user : string) : Py World MemoryRef :=
  try_except
    (in_conversations <- gets (fun w => has_key user (conversations (memory_service w))) ;;
     keep <- (if in_conversations then
                active <- _is_conversation_active user ;;
                if active then ret true
                else (_cleanup_conversation user ;; ret false)
              else ret false) ;;
     if keep then ret (Stored user)
     else
       modify (set_memory (set_conversations (<[user := {| chat_memory := [] |}]>))) ;;
       now <- datetime_now ;;
       modify (set_memory (set_conversation_states
                 (<[user := {| user_id := user; messages := [];
                               last_activity := now; session_id := None |}]>))) ;;
       ret (Stored user))
    (ret Fresh).

(** The trimming at the end of [add_message]. *)
Definition keep_recent (st : ConversationState) : ConversationState :=
  if Z.of_nat (length (messages st)) >? max_conversation_history settings * 2
  then set_messages
         (slice_from (- max_conversation_history settings * 2) (messages st)) st
  else st.

Definition add_message (user human_message ai_response : string) : Py World bool :=
  try_except
    (memory <- get_or_create_memory user ;;
     buffer_add memory (HumanMessage human_message) ;;
     buffer_add memory (AIMessage ai_response) ;;
     in_states <- gets (fun w => has_key user (conversation_states (memory_service w))) ;;
     when in_states
       (now <- datetime_now ;;
        update_state user (append_message (human_entry human_message now)) ;;
        now <- datetime_now ;;
        update_state user (append_message (ai_entry ai_response now)) ;;
        now <- datetime_now ;;
        update_state user (set_last_activity now) ;;
        update_state user keep_recent) ;;
     ret true)
    (ret false).

Definition get_conversation_history (user : string) : Py World (list Message) :=
  try_except
    (st <- gets (fun w => conversation_states (memory_service w) !! user) ;;
     match st with
     | None => ret []
     | Some state => ret (messages state)
     end)
    (ret []).

Definition clear_conversation (user : string) : Py World bool :=
  try_except
    (in_conversations <- gets (fun w => has_key user (conversations (memory_service w))) ;;
     when in_conversations
       (update_buffer user (fun _ => {| chat_memory := [] |})) ;;
     in_states <- gets (fun w => has_key user (conversation_states (memory_service w))) ;;
     when in_states
       (update_state user (set_messages []) ;;
        now <- datetime_now ;;
        update_state user (set_last_activity now)) ;;
     ret true)
    (ret false).

(** The first loop of [cleanup_expired_conversations]. *)
Fixpoint collect_expired (users : list string) : Py World (list string) :=
  match users with
  | [] => ret []
  | user :: rest =>
      active <- _is_conversation_active user ;;
      expired <- collect_expired rest ;;
      ret (if active then expired else user :: expired)
  end.

Definition cleanup_expired_conversations : Py World unit :=
  try_except
    (users <- gets (fun w => (map_to_list (conversation_states (memory_service w))).*1) ;;
     expired_users <- collect_expired users ;;
     for_each expired_users _cleanup_conversation)
    (ret tt).

(** [get_active_conversations_count]. *)
Fixpoint count_active (users : list string) : Py World nat :=
  match users with
  | [] => ret 0%nat
  | user :: rest =>
      active <- _is_conversation_active user ;;
      n <- count_active rest ;;
      ret (if active then S n else n)
  end.

Definition get_active_conversations_count : Py World nat :=
  try_except
    (users <- gets (fun w => (map_to_list (conversation_states (memory_service w))).*1) ;;
     count_active users)
    (ret 0%nat).

(** The dictionary returned by [get_conversation_summary]. *)
Inductive Summary : Type :=
| SummaryNotFound (message_count : nat)
| SummaryFound (user : string) (message_count : nat) (last_activity : Z)
    (is_active : bool) (memory_buffer_length : nat)
| SummaryError.

Definition get_conversation_summary (user : string) : Py World Summary :=
  try_except
    (st <- gets (fun w => conversation_states (memory_service w) !! user) ;;
     match st with
     | None => ret (SummaryNotFound 0)
     | Some state =>
         memory <- gets (fun w => conversations (memory_service w) !! user) ;;
         active <- _is_conversation_active user ;;
         ret (SummaryFound user (length (messages state)) (last_activity state)
                active
                (match memory with
                 | Some b => length (chat_memory b)
                 | None => 0%nat
                 end))
     end)
    (ret SummaryError).

(** The value under the key ["message_count"], when the key is there. *)
Definition summary_message_count (s : Summary) : option nat :=
  match s with
  | SummaryNotFound n => Some n
  | SummaryFound _ n _ _ _ => Some n
  | SummaryError => None
  end.

End MemoryService.

(** ** Floating point: Python's [float] is IEEE binary64 *)

Module PyFloat.

Definition prec : Z := 53.
Definition emax : Z := 1024.

Definition float : Type := spec_float.

Definition add : float -> float -> float := SFadd prec emax.
Definition mul : float -> float -> float := SFmul prec emax.
Definition ltb : float -> float -> bool := SFltb.
Definition leb : float -> float -> bool := SFleb.

(** The literals of the source, each the binary64 value nearest to the
    decimal: mantissa and exponent of [m * 2^e]. *)
Definition f_0_0 : float := S754_zero false.
Definition f_0_02 : float := S754_finite false 5764607523034235 (-58).
Definition f_0_1 : float := S754_finite false 7205759403792794 (-56).
Definition f_0_2 : float := S754_finite false 7205759403792794 (-55).
Definition f_0_3 : float := S754_finite false 5404319552844595 (-54).
Definition f_0_5 : float := S754_finite false 4503599627370496 (-53).
Definition f_0_8 : float := S754_finite false 7205759403792794 (-53).
Definition f_0_95 : float := S754_finite false 8556839292003942 (-53).

(** [float(n)] for an [int]: rounded to nearest even, and an
    [OverflowError] when the rounded value is not finite. This is the
    conversion Python applies to the [int] operand of [n * 0.1]. *)
Definition of_int (n : Z) : result float :=
  match binary_normalize prec emax n 0 false with
  | S754_infinity _ => Raise
  | x => Ok x
  end.

(** The builtin [min(a, b)]: the second argument replaces the first only
    when it is strictly smaller. *)
Definition py_min (a b : float) : float := if ltb b a then b else a.

(** Zero, a positive finite number or plus infinity: not a NaN and not
    below zero. *)
Definition nonneg (x : float) : bool :=
  match x with
  | S754_zero _ => true
  | S754_infinity s | S754_finite s _ _ => negb s
  | S754_nan => false
  end.

Definition finite (x : float) : bool :=
  match x with
  | S754_zero _ | S754_finite _ _ _ => true
  | _ => false
  end.

End PyFloat.

Import PyFloat.

(** ** The orchestrator ([app/services/chatbot.py]) *)

Record ChatResponse : Type := mkResponse {
  response : string;
  confidence : option float;
  sources : option (list string)
}.

(** [PDFProcessorService]: only the vector store matters here;
    [vectorstore] is [None] until the index is loaded, and
    [similarity_search] may raise. *)
Record PDFProcessorService : Type := mkPDF {
  vectorstore : option (string -> nat -> result (list Document))
}.

(** [ChatbotService] without its memory service, which lives in the
    world: [chat_model] maps a prompt to the [content] of the reply of
    [ainvoke], or raises. *)
Record ChatbotService : Type := mkChatbot {
  pdf_processor : PDFProcessorService;
  chat_model : string -> result string;
  is_initialized : bool
}.

(** One entry of the formatted history: the dictionary with keys
    ["human"] and ["ai"]. *)
Record Exchange : Type := mkExchange {
  human : string;
  ai : string
}.

(** A call to an external collaborator: logged, then its outcome. *)
Definition external_call {A} (c : ExternalCall) (outcome : result A) : Py World A :=
  modify (log_call c) ;; lift_result outcome.

(** [PDFProcessorService.search_documents]. *)
Definition search_documents (pdf : PDFProcessorService) (query : string) (k : nat)
    : Py World (list Document) :=
  try_except
    (match vectorstore pdf with
     | None => ret []
     | Some similarity_search =>
         external_call (RetrieverCall query k) (similarity_search query k)
     end)
    (ret []).

(** The loop of [_get_formatted_chat_history]: entries [i] and [i + 1]
    for every even [i] with [i + 1 < len(history)]. *)
Fixpoint pair_up (history : list Message) : list Exchange :=
  match history with
  | h :: a :: rest =>
      {| human := msg_content h; ai := msg_content a |} :: pair_up rest
  | _ => []
  end.

(** [self.prompt_template.format(context=..., chat_history=..., question=...)]. *)
Definition prompt_template_format (context chat_history question : string) : string :=
  PyStr.join PyStr.nl
    ["You are a helpful multilingual assistant that answers questions based on the provided product documentation in any language.";
     "";
     "        Use the following context to answer the user's question. If the answer isn't available in the context, say so clearly and offer to help with something else.";
     "";
     "        Product documentation:";
     "        " ++ context;
     "";
     "        Previous conversation:";
     "        " ++ chat_history;
     "";
     "        User's question:";
     "        " ++ question;
     "";
     "        Guidelines:";
     "        1. Always respond in the same language the user used.";
     "        2. Use the provided context as the main source of truth.";
     "        3. Be concise, friendly, and informative.";
     "        4. If the answer is not in the context, say so transparently.";
     "        5. If the user asks about your language abilities (e.g., " ++ PyStr.dquote ++ "Can you speak Chinese?" ++ PyStr.dquote ++ "), confirm that you understand and speak all languages.";
     "        6. Use the chat history to maintain conversation flow.";
     "        7. Do not make up information not found in the documentation.";
     "";
     "        Answer:"]%string.

(** [fallback_prompt.format(question=message)]. *)
Definition fallback_prompt_format (question : string) : string :=
  PyStr.join PyStr.nl
    ["You are a helpful multilingual assistant that only answers questions based on the provided product documentation.";
     "";
     "            No relevant information was found in the documentation for this question.";
     "";
     "            User's question:";
     "            " ++ question;
     "";
     "            Guidelines:";
     "            1. Always respond in the user's language.";
     "            2. Politely explain that you don't have information on this topic in the product documentation.";
     "            3. Do not make up answers or go beyond what's in the documentation.";
     "            4. If the question is a greeting or thank you, reply warmly and offer assistance.";
     "            5. If the user asks about what languages you can speak (e.g., " ++ PyStr.dquote ++ "Do you speak Chinese?" ++ PyStr.dquote ++ "), confirm that you understand and speak all languages.";
     "            6. Invite the user to ask another product-related question.";
     "            7. Keep responses concise, friendly, and on-topic.";
     "";
     "            Response:"]%string.

Definition unavailable_text : string :=
  "I'm sorry, but I'm currently not available. Please try again later.".

Definition processing_error_text : string :=
  "I'm sorry, but I encountered an error while processing your message. Please try again.".

Definition generation_error_text : string :=
  "I'm sorry, I couldn't generate a proper response.".

Definition basic_fallback_text : string :=
  "I don't have specific information about that in my product knowledge base. Could you please ask about our product features, specifications, or services?".

(** [set(s.lower().split())]. *)
Definition word_set (s : string) : gset string :=
  list_to_set (PyStr.split (PyStr.lower s)).

(** The loop [for doc in documents: doc_words.update(...)]. *)
Definition doc_word_set (documents : list Document) : gset string :=
  fold_left (fun acc doc => acc ∪ word_set (page_content doc)) documents ∅.

(** The body of the [try] of [_calculate_confidence]; it reads neither the
    world nor the service. *)
Definition confidence_body (documents : list Document) (question : string)
    : Py World float :=
  match documents with
  | [] => ret f_0_0
  | _ =>
      n <- lift_result (of_int (Z.of_nat (length documents))) ;;
      let base_confidence := py_min f_0_8 (add f_0_3 (mul n f_0_1)) in
      let question_words := word_set question in
      let doc_words := doc_word_set documents in
      let keyword_overlap := size (question_words ∩ doc_words) in
      k <- lift_result (of_int (Z.of_nat keyword_overlap)) ;;
      let keyword_boost := py_min f_0_2 (mul k f_0_02) in
      ret (py_min f_0_95 (add base_confidence keyword_boost))
  end.

Definition _calculate_confidence (documents : list Document) (question : string)
    : Py World float :=
  try_except (confidence_body documents question) (ret f_0_5).

Section ChatbotService.
Variable settings : Settings.
Variable self : ChatbotService.

Definition _get_formatted_chat_history (user : string) : Py World (list Exchange) :=
  try_except
    (history <- get_conversation_history user ;;
     ret (slice_from (-5) (pair_up history)))
    (ret []).

Definition _format_chat_history (chat_history : list Exchange) : string :=
  match chat_history with
  | [] => "No previous conversation."
  | _ =>
      PyStr.join PyStr.nl
        (flat_map (fun exchange =>
                     ["Human: " ++ human exchange;
                      "Assistant: " ++ ai exchange]%string)
                  chat_history)
  end.

(** [list(set(sources))]: the distinct sources, in no particular order. *)
Definition distinct_sources (documents : list Document) : list string :=
  elements (list_to_set
              (map (fun doc => default "Unknown" (metadata doc !! "source"))
                   documents) : gset string).

Definition _generate_response_with_context
    (question : string) (documents : list Document) (chat_history : list Exchange)
    : Py World (string * float * list string) :=
  try_except
    (let context := PyStr.join (PyStr.nl ++ PyStr.nl) (map page_content documents) in
     let history_text := _format_chat_history chat_history in
     let prompt := prompt_template_format context history_text question in
     content <- external_call (GeneratorCall prompt) (chat_model self prompt) ;;
     let response_text := PyStr.strip content in
     let sources := distinct_sources documents in
     confidence <- _calculate_confidence documents question ;;
     ret (response_text, confidence, sources))
    (ret (generation_error_text, f_0_0, [])).

Definition _generate_fallback_response (message : string) : Py World string :=
  try_except
    (let prompt := fallback_prompt_format message in
     content <- external_call (GeneratorCall prompt) (chat_model self prompt) ;;
     ret (PyStr.strip content))
    (ret basic_fallback_text).

Definition process_message (user message : string) : Py World ChatResponse :=
  try_except
    (if negb (is_initialized self) then
       ret {| response := unavailable_text;
              confidence := Some f_0_0; sources := None |}
     else
       chat_history <- _get_formatted_chat_history user ;;
       relevant_docs <- search_documents (pdf_processor self) message 5 ;;
       answer <- (match relevant_docs with
                  | [] =>
                      response_text <- _generate_fallback_response message ;;
                      ret (response_text, f_0_3, [])
                  | _ =>
                      _generate_response_with_context message relevant_docs chat_history
                  end) ;;
       let '(response_text, confidence, sources) := answer in
       add_message settings user message response_text ;;
       cleanup_expired_conversations settings ;;
       ret {| response := response_text;
              confidence := Some confidence; sources := Some sources |})
    (ret {| response := processing_error_text;
            confidence := Some f_0_0; sources := None |}).

End ChatbotService.

(** The last [n] elements of a list. *)
Definition last_n {A} (n : nat) (l : list A) : list A :=
  drop (length l - n) l.

(** ** Running computations *)

Definition eval {A} (m : Py World A) (w : World) : result A := fst (m w).
Definition exec {A} (m : Py World A) (w : World) : World := snd (m w).

(** ** The session store as a function of the memory *)

Section StoreFunctions.
Variable settings : Settings.

(** The session of [user] exists and has not timed out at [now]. *)
Definition active_at (now : Z) (m : MemoryService) (user : string) : bool :=
  match conversation_states m !! user with
  | None => false
  | Some st =>
      now - last_activity st
      <? conversation_timeout settings * microseconds_per_second
  end.

Definition forget_user (user : string) (m : MemoryService) : MemoryService :=
  {| conversations := delete user (conversations m);
     conversation_states := delete user (conversation_states m) |}.

Definition fresh_state (user : string) (now : Z) : ConversationState :=
  {| user_id := user; messages := []; last_activity := now; session_id := None |}.

(** The memory after [get_or_create_memory]. *)
Definition ensure_session (now : Z) (user : string) (m : MemoryService) : MemoryService :=
  if has_key user (conversations m) && active_at now m user then m
  else {| conversations := <[user := {| chat_memory := [] |}]> (conversations m);
          conversation_states := <[user := fresh_state user now]> (conversation_states m) |}.

Definition record_exchange (now : Z) (human_message ai_response : string)
    (st : ConversationState) : ConversationState :=
  keep_recent settings
    (set_last_activity now
       (append_message (ai_entry ai_response now)
          (append_message (human_entry human_message now) st))).

Definition record_buffer (human_message ai_response : string)
    (b : ConversationBufferMemory) : ConversationBufferMemory :=
  {| chat_memory :=
       (chat_memory b ++ [HumanMessage human_message]) ++ [AIMessage ai_response] |}.

(** The memory after [add_message]. *)
Definition appended (now : Z) (user human_message ai_response : string)
    (m : MemoryService) : MemoryService :=
  let m1 := ensure_session now user m in
  {| conversations :=
       alter (record_buffer human_message ai_response) user (conversations m1);
     conversation_states :=
       alter (record_exchange now human_message ai_response) user
         (conversation_states m1) |}.

(** The memory after [clear_conversation]. *)
Definition cleared (now : Z) (user : string) (m : MemoryService) : MemoryService :=
  {| conversations := alter (fun _ => {| chat_memory := [] |}) user (conversations m);
     conversation_states :=
       alter (fun st => set_last_activity now (set_messages [] st)) user
         (conversation_states m) |}.

Definition forget_all (users : list string) (m : MemoryService) : MemoryService :=
  fold_left (fun m user => forget_user user m) users m.

(** The users [cleanup_expired_conversations] collects. *)
Definition expired_users (now : Z) (m : MemoryService) : list string :=
  filter (fun user => active_at now m user = false)
         (map_to_list (conversation_states m)).*1.

(** The memory after [cleanup_expired_conversations]. *)
Definition swept (now : Z) (m : MemoryService) : MemoryService :=
  forget_all (expired_users now m) m.

(** The trimming of [keep_recent] on the list itself. *)
Definition trimmed (l : list Message) : list Message :=
  if Z.of_nat (length l) >? max_conversation_history settings * 2
  then slice_from (- max_conversation_history settings * 2) l
  else l.

(** The history [add_message] appends to: the stored one when the
    session is kept, the empty one when it is created or replaced. *)
Definition base_history (now : Z) (m : MemoryService) (user : string) : list Message :=
  match conversation_states (ensure_session now user m) !! user with
  | None => []
  | Some st => messages st
  end.

(** The stored history of a user, as [get_conversation_history] reads it. *)
Definition history_of (m : MemoryService) (user : string) : list Message :=
  match conversation_states m !! user with
  | None => []
  | Some st => messages st
  end.

(** One append per element: the clock is set to the time of the call,
    then [add_message] runs. *)
Definition run_appends (user : string) (xs : list (Z * string * string)) (w : World)
    : World :=
  fold_left
    (fun w x => exec (add_message settings user x.1.2 x.2) (set_clock x.1.1 w))
    xs w.

(** The two entries [add_message] stores for one call. *)
Definition entries (xs : list (Z * string * string)) : list Message :=
  flat_map (fun x => [human_entry x.1.2 x.1.1; ai_entry x.2 x.1.1]) xs.

(** Every call comes less than the timeout after the previous one. *)
Fixpoint within_timeout (previous : Z) (xs : list (Z * string * string)) : Prop :=
  match xs with
  | [] => True
  | x :: rest =>
      x.1.1 - previous < conversation_timeout settings * microseconds_per_second
      ∧ within_timeout x.1.1 rest
  end.

(** The worlds the public methods of the store produce, starting from
    the empty store, with the clock moving between calls. *)
Inductive reachable : World -> Prop :=
| reach_initial now : reachable (initial_world now)
| reach_clock w now : reachable w -> reachable (set_clock now w)
| reach_call w c : reachable w -> reachable (log_call c w)
| reach_get_or_create w user :
    reachable w -> reachable (exec (get_or_create_memory settings user) w)
| reach_add_message w user human_message ai_response :
    reachable w ->
    reachable (exec (add_message settings user human_message ai_response) w)
| reach_clear w user :
    reachable w -> reachable (exec (clear_conversation user) w)
| reach_cleanup w :
    reachable w -> reachable (exec (cleanup_expired_conversations settings) w).

End StoreFunctions.

(** The prompt of the grounded path. *)
Definition grounded_prompt (question : string) (documents : list Document)
    (chat_history : list Exchange) : string :=
  prompt_template_format
    (PyStr.join (PyStr.nl ++ PyStr.nl) (map page_content documents))
    (_format_chat_history chat_history) question.

(** The history window [process_message] reads for a user. *)
Definition history_window (w : World) (user : string) : list Exchange :=
  slice_from (-5) (pair_up (history_of (memory_service w) user)).

(** ** The reference scorer, from the words of the specification *)

Module Reference.

(** The smaller of two floats. *)
Definition fmin (a b : float) : float := if leb a b then a else b.

(** The lowercase whitespace-split tokens of a text. *)
Definition tokens (text : string) : list string := PyStr.split (PyStr.lower text).

(** The number of distinct tokens of the query that occur in some chunk. *)
Definition overlap (chunks : list Document) (query : string) : nat :=
  length (filter (fun t => t ∈ flat_map (fun c => tokens (page_content c)) chunks)
                 (remove_dups (tokens query))).

(** [score(chunks, query)]: [0.0] for no chunks, [0.5] on an internal
    error, and otherwise [min(0.95, base + boost)] with
    [base = min(0.8, 0.3 + 0.1 * |chunks|)] and
    [boost = min(0.2, 0.02 * overlap)]. *)
Definition score (chunks : list Document) (query : string) : float :=
  match chunks with
  | [] => f_0_0
  | _ =>
      match of_int (Z.of_nat (length chunks)),
            of_int (Z.of_nat (overlap chunks query)) with
      | Ok n, Ok k =>
          let base := fmin f_0_8 (add f_0_3 (mul f_0_1 n)) in
          let boost := fmin f_0_2 (mul f_0_02 k) in
          fmin f_0_95 (add base boost)
      | _, _ => f_0_5
      end
  end.

End Reference.

(** Every stored history has an even number of entries. *)
Definition paired (m : MemoryService) : Prop :=
  ∀ user, Nat.Even (length (history_of m user)).

(** ** Sample collaborators and settings for the concrete runs *)

Definition refund_document : Document :=
  {| page_content := "Refund requests are accepted within 30 days";
     metadata := {[ "source" := "product.pdf" ]} |}.

Definition policy_document : Document :=
  {| page_content := "The refund is paid to the original account";
     metadata := {[ "source" := "product.pdf" ]} |}.

Definition store_returning (documents : list Document) : PDFProcessorService :=
  {| vectorstore := Some (fun _ _ => Ok documents) |}.

Definition failing_model : string -> result string := fun _ => Raise.

Definition answering_model : string -> result string :=
  fun _ => Ok "  You can ask for a refund within 30 days.  ".

Definition service (documents : list Document) (model : string -> result string)
    : ChatbotService :=
  {| pdf_processor := store_returning documents;
     chat_model := model;
     is_initialized := true |}.

Definition uninitialized_service : ChatbotService :=
  {| pdf_processor := {| vectorstore := None |};
     chat_model := answering_model;
     is_initialized := false |}.

Definition zero_cap_settings : Settings :=
  {| max_conversation_history := 0; conversation_timeout := 1800 |}.

(** The two dictionaries of the store hold the same users. *)
Definition same_keys (m : MemoryService) : Prop :=
  ∀ user, has_key user (conversations m) = has_key user (conversation_states m).

(** The buffer messages [add_message] stores for the calls [xs]. *)
Definition buffer_entries (xs : list (Z * string * string)) : list BaseMessage :=
  flat_map (fun x => [HumanMessage x.1.2; AIMessage x.2]) xs.

(** The buffer of a user, empty when there is none. *)
Definition buffer_of (m : MemoryService) (user : string) : list BaseMessage :=
  match conversations m !! user with
  | None => []
  | Some b => chat_memory b
  end.

(** What [get_memory_context] returns: the empty string, or the buffer
    of messages ([return_messages=True]). *)
Inductive MemoryContext : Type :=
| EmptyContext
| BufferContext (buffer : list BaseMessage).

(** [memory.buffer] through a reference. *)
Definition read_buffer (memory : MemoryRef) : Py World (list BaseMessage) :=
  match memory with
  | Stored user => gets (fun w => buffer_of (memory_service w) user)
  | Fresh => ret []
  end.

Definition get_memory_context (settings : Settings) (user : string)
    : Py World MemoryContext :=
  try_except
    (memory <- get_or_create_memory settings user ;;
     buffer <- read_buffer memory ;;
     match buffer with
     | [] => ret EmptyContext
     | _ => ret (BufferContext buffer)
     end)
    (ret EmptyContext).

(** ** The messaging gateway ([app/services/twilio_service.py]) and the
    background task of [app/main.py] *)

(** [s.startswith(p)]. *)
Fixpoint startswith (s p : string) {struct p} : bool :=
  match p with
  | EmptyString => true
  | String c p' =>
      match s with
      | EmptyString => false
      | String d s' => Ascii.eqb c d && startswith s' p'
      end
  end.

(** [s[n:]] for a non-negative [n]. *)
Fixpoint str_drop (n : nat) (s : string) : string :=
  match n, s with
  | O, _ => s
  | S n', String _ s' => str_drop n' s'
  | S _, EmptyString => EmptyString
  end.

Definition whatsapp_prefix : string := "whatsapp:".

(** [TwilioService.format_phone_number]. *)
Definition format_phone_number (phone_number : string) : string :=
  let phone_number :=
    if startswith phone_number whatsapp_prefix then str_drop 9 phone_number
    else phone_number in
  let phone_number :=
    if startswith phone_number "+" then phone_number else "+" ++ phone_number in
  whatsapp_prefix ++ phone_number.

(** [TwilioService.extract_phone_number]. *)
Definition extract_phone_number (whatsapp_number : string) : string :=
  if startswith whatsapp_number whatsapp_prefix then str_drop 9 whatsapp_number
  else whatsapp_number.

(** [app.models.WhatsAppMessage]. *)
Record WhatsAppMessage : Type := mkWhatsApp {
  message_sid : string;
  from_number : string;
  to_number : string;
  body : string;
  timestamp : Z
}.

(** The arguments of one [client.messages.create(body=, from_=, to=)]. *)
Record Delivery : Type := mkDelivery {
  delivery_body : string;
  delivery_from : option string;
  delivery_to : string
}.

(** What [client.messages.create] does: it returns a message with a
    [sid], raises a [TwilioException] (with its [code], if it has one), or
    raises something else. *)
Inductive ClientOutcome : Type :=
| MessageCreated (sid : string)
| TwilioException (text : string) (code : option Z)
| OtherException (text : string).

(** [TwilioService]: [client] is [None] when the credentials are not
    configured. *)
Record TwilioService : Type := mkTwilio {
  client : option (Delivery -> ClientOutcome);
  twilio_phone_number : option string
}.

(** The dictionary [send_message] returns: status ["sent"] or status
    ["error"]; the key ["error_code"] is there only for a
    [TwilioException]. *)
Inductive SendResult : Type :=
| SendSent (sid to body : string) (timestamp : Z)
| SendError (error : string) (error_code : option (option Z)) (timestamp : Z).

(** The world of the transport layer: the world of the orchestrator and
    the calls made to the Twilio client. *)
Record Gateway : Type := mkGateway {
  core : World;
  attempts : list Delivery
}.

Definition lift_core {A} (m : Py World A) : Py Gateway A :=
  fun g =>
    let r := m (core g) in
    (r.1, {| core := r.2; attempts := attempts g |}).

Definition log_attempt (d : Delivery) (g : Gateway) : Gateway :=
  {| core := core g; attempts := attempts g ++ [d] |}.

Definition client_not_initialized_text : string :=
  "Twilio client not initialized. Check your credentials.".

(** [TwilioService.send_message]. *)
Definition send_message (tw : TwilioService) (to_number message_body : string)
    : Py Gateway SendResult :=
  match client tw with
  | None =>
      now <- lift_core datetime_now ;;
      ret (SendError client_not_initialized_text None now)
  | Some create =>
      let to_number :=
        if startswith to_number whatsapp_prefix then to_number
        else whatsapp_prefix ++ to_number in
      let d := {| delivery_body := message_body;
                  delivery_from := twilio_phone_number tw;
                  delivery_to := to_number |} in
      modify (log_attempt d) ;;
      match create d with
      | MessageCreated sid =>
          now <- lift_core datetime_now ;;
          ret (SendSent sid to_number message_body now)
      | TwilioException text code =>
          now <- lift_core datetime_now ;;
          ret (SendError text (Some code) now)
      | OtherException text =>
          now <- lift_core datetime_now ;;
          ret (SendError text None now)
      end
  end.


Definition apology_text : string :=
  "I'm sorry, I encountered an error. Please try again later.".

(** [process_whatsapp_message] of [app/main.py]. *)
Definition process_whatsapp_message (settings : Settings) (chatbot : ChatbotService)
    (tw : TwilioService) (message : WhatsAppMessage) : Py Gateway unit :=
  try_except
    (reply <- lift_core (process_message settings chatbot
                           (from_number message) (body message)) ;;
     send_result <- send_message tw (from_number message) (response reply) ;;
     ret tt)
    (try_except
       (send_message tw (from_number message) apology_text ;; ret tt)
       (ret tt)).





(** * Properties *)

Local Open Scope list_scope.

(** ** The building blocks on small inputs *)

Example split_example :
  PyStr.split (PyStr.lower "  Refund  POLICY ") = ["refund"; "policy"].
Proof. reflexivity. Qed.

Example strip_example : PyStr.strip "  the answer  " = "the answer".
Proof. reflexivity. Qed.

Example slice_from_negative : slice_from (-2) [1; 2; 3] = [2; 3].
Proof. reflexivity. Qed.

Example slice_from_minus_zero : slice_from (- 0) [1; 2; 3] = [1; 2; 3].
Proof. reflexivity. Qed.

(** The constants are the binary64 values of the literals, here written
    in exact hexadecimal. *)
Example float_literals :
  Prim2SF 0x1.47ae147ae147bp-6 = f_0_02
  ∧ Prim2SF 0x1.999999999999ap-4 = f_0_1
  ∧ Prim2SF 0x1.999999999999ap-3 = f_0_2
  ∧ Prim2SF 0x1.3333333333333p-2 = f_0_3
  ∧ Prim2SF 0x1p-1 = f_0_5
  ∧ Prim2SF 0x1.999999999999ap-1 = f_0_8
  ∧ Prim2SF 0x1.e666666666666p-1 = f_0_95.
Proof. repeat split; reflexivity. Qed.

(** [0.3 + 3 * 0.1] is [0.6000000000000001] in binary64. *)
Example float_sum_example :
  match of_int 3 with Ok n => Ok (add f_0_3 (mul n f_0_1)) | Raise => Raise end
  = Ok (Prim2SF 0x1.3333333333334p-1).
Proof. reflexivity. Qed.

(** ** What each method of the store computes *)

Ltac py_unfold :=
  unfold try_except, bind, ret, raise, gets, modify, when, lift_result,
    datetime_now, update_state, update_buffer, external_call in *.

Section StoreRuns.
Variable settings : Settings.

Lemma is_conversation_active_run user w :
  _is_conversation_active settings user w
  = (Ok (active_at settings (clock w) (memory_service w) user), w).
Proof.
  unfold _is_conversation_active, active_at. py_unfold. simpl.
  destruct (conversation_states (memory_service w) !! user); reflexivity.
Qed.

Lemma has_key_false {V} (key : string) (d : gmap string V) :
  has_key key d = false -> delete key d = d.
Proof.
  unfold has_key. destruct (d !! key) eqn:E; [discriminate|].
  intros _. by apply delete_id.
Qed.

Lemma set_memory_id w : set_memory (fun m => m) w = w.
Proof. by destruct w. Qed.

Lemma cleanup_conversation_run user w :
  _cleanup_conversation user w = (Ok tt, set_memory (forget_user user) w).
Proof.
  unfold _cleanup_conversation, forget_user. py_unfold. simpl.
  destruct w as [[cs sts] now log]; simpl.
  destruct (has_key user cs) eqn:Hc; simpl;
    destruct (has_key user sts) eqn:Hs; simpl;
    unfold set_memory, set_conversations, set_conversation_states; simpl;
    rewrite ?(has_key_false _ _ Hc), ?(has_key_false _ _ Hs); reflexivity.
Qed.

Lemma get_or_create_memory_run user w :
  get_or_create_memory settings user w
  = (Ok (Stored user), set_memory (ensure_session settings (clock w) user) w).
Proof.
  unfold get_or_create_memory.
  unfold try_except at 1. unfold bind at 1. unfold gets at 1.
  unfold set_memory, ensure_session.
  destruct (has_key user (conversations (memory_service w))) eqn:Hc; simpl.
  - unfold bind at 1. unfold bind at 1. rewrite is_conversation_active_run.
    destruct (active_at settings (clock w) (memory_service w) user) eqn:Ha.
    + py_unfold. by destruct w.
    + unfold bind at 1. rewrite cleanup_conversation_run. py_unfold. simpl.
      unfold set_memory, set_conversations, set_conversation_states; simpl.
      by rewrite !insert_delete_eq.
  - py_unfold. simpl. reflexivity.
Qed.

Lemma has_key_ensure_session now user m :
  has_key user (conversation_states (ensure_session settings now user m)) = true.
Proof.
  unfold ensure_session.
  destruct (has_key user (conversations m) && active_at settings now m user) eqn:E.
  - apply andb_true_iff in E as [_ E]. unfold active_at in E. unfold has_key.
    by destruct (conversation_states m !! user).
  - simpl. unfold has_key. by rewrite lookup_insert_eq.
Qed.

Lemma alter_alter {V} (f g : V -> V) (key : string) (d : gmap string V) :
  alter f key (alter g key d) = alter (fun v => f (g v)) key d.
Proof.
  apply map_eq. intros j. destruct (decide (key = j)) as [->|Hne].
  - rewrite !lookup_alter_eq. by destruct (d !! j).
  - by rewrite !lookup_alter_ne.
Qed.

Lemma add_message_run user human_message ai_response w :
  add_message settings user human_message ai_response w
  = (Ok true,
     set_memory (appended settings (clock w) user human_message ai_response) w).
Proof.
  unfold add_message.
  unfold try_except at 1. unfold bind at 1. rewrite get_or_create_memory_run.
  unfold buffer_add. py_unfold. simpl.
  unfold set_conversations, set_conversation_states. simpl.
  rewrite has_key_ensure_session. simpl.
  unfold set_memory, appended, record_exchange, record_buffer. simpl.
  rewrite !alter_alter. reflexivity.
Qed.

Lemma get_conversation_history_run user w :
  get_conversation_history user w = (Ok (history_of (memory_service w) user), w).
Proof.
  unfold get_conversation_history, history_of. py_unfold.
  destruct (conversation_states (memory_service w) !! user); reflexivity.
Qed.

Lemma has_key_alter_id {V} (f : V -> V) (key : string) (d : gmap string V) :
  has_key key d = false -> alter f key d = d.
Proof.
  unfold has_key. destruct (d !! key) eqn:E; [discriminate|].
  intros _. apply map_eq. intros j. destruct (decide (key = j)) as [->|Hne].
  - rewrite lookup_alter_eq. by rewrite E.
  - by rewrite lookup_alter_ne.
Qed.

Lemma clear_conversation_run user w :
  clear_conversation user w = (Ok true, set_memory (cleared (clock w) user) w).
Proof.
  unfold clear_conversation, cleared. py_unfold. simpl.
  destruct w as [[cs sts] now log]; simpl.
  unfold set_memory, set_conversations, set_conversation_states; simpl.
  destruct (has_key user cs) eqn:Hc; simpl;
    destruct (has_key user sts) eqn:Hs; simpl;
    rewrite ?alter_alter, ?(has_key_alter_id _ _ _ Hc), ?(has_key_alter_id _ _ _ Hs);
    reflexivity.
Qed.

Lemma collect_expired_run users w :
  collect_expired settings users w
  = (Ok (filter (fun user => active_at settings (clock w) (memory_service w) user = false) users), w).
Proof.
  induction users as [|user rest IH]; [reflexivity|].
  simpl. unfold bind at 1. rewrite is_conversation_active_run.
  unfold bind at 1. rewrite IH. unfold ret.
  rewrite filter_cons.
  destruct (active_at settings (clock w) (memory_service w) user) eqn:E.
  - rewrite decide_False by done. reflexivity.
  - rewrite decide_True by done. reflexivity.
Qed.

Lemma for_each_cleanup_run users w :
  for_each users _cleanup_conversation w = (Ok tt, set_memory (forget_all users) w).
Proof.
  revert w. induction users as [|user rest IH]; intros w.
  - simpl. unfold ret. by destruct w.
  - simpl. unfold bind at 1. rewrite cleanup_conversation_run, IH.
    by destruct w.
Qed.

Lemma cleanup_expired_conversations_run w :
  cleanup_expired_conversations settings w
  = (Ok tt, set_memory (swept settings (clock w)) w).
Proof.
  unfold cleanup_expired_conversations.
  unfold try_except, bind at 1, gets.
  unfold bind. rewrite collect_expired_run, for_each_cleanup_run.
  reflexivity.
Qed.

Lemma forget_all_states users m user :
  conversation_states (forget_all users m) !! user
  = if bool_decide (user ∈ users) then None else conversation_states m !! user.
Proof.
  revert m. induction users as [|u rest IH]; intros m; [reflexivity|].
  unfold forget_all in *. simpl. rewrite IH. simpl.
  destruct (decide (u = user)) as [->|Hne].
  - rewrite lookup_delete_eq. rewrite (bool_decide_eq_true_2 (user ∈ user :: rest)).
    + by case_bool_decide.
    + by left.
  - rewrite lookup_delete_ne by done.
    destruct (bool_decide (user ∈ rest)) eqn:E.
    + apply bool_decide_eq_true_1 in E. rewrite bool_decide_eq_true_2; [done|by right].
    + apply bool_decide_eq_false_1 in E. rewrite bool_decide_eq_false_2; [done|].
      intros [?|?]%elem_of_cons; congruence.
Qed.

Lemma forget_all_conversations users m user :
  conversations (forget_all users m) !! user
  = if bool_decide (user ∈ users) then None else conversations m !! user.
Proof.
  revert m. induction users as [|u rest IH]; intros m; [reflexivity|].
  unfold forget_all in *. simpl. rewrite IH. simpl.
  destruct (decide (u = user)) as [->|Hne].
  - rewrite lookup_delete_eq. rewrite (bool_decide_eq_true_2 (user ∈ user :: rest)).
    + by case_bool_decide.
    + by left.
  - rewrite lookup_delete_ne by done.
    destruct (bool_decide (user ∈ rest)) eqn:E.
    + apply bool_decide_eq_true_1 in E. rewrite bool_decide_eq_true_2; [done|by right].
    + apply bool_decide_eq_false_1 in E. rewrite bool_decide_eq_false_2; [done|].
      intros [?|?]%elem_of_cons; congruence.
Qed.

Lemma elem_of_expired_users now m user :
  user ∈ expired_users settings now m
  <-> is_Some (conversation_states m !! user) ∧ active_at settings now m user = false.
Proof.
  unfold expired_users. rewrite list_elem_of_filter, list_elem_of_fmap.
  split.
  - intros [Ha [[k st] [-> Hin]]]. apply elem_of_map_to_list in Hin. simpl in *.
    split; [by exists st | done].
  - intros [[st Hst] Ha]. split; [done|].
    exists (user, st). split; [done|]. by apply elem_of_map_to_list.
Qed.

(** The sweep keeps exactly the sessions that are still active. *)
Lemma swept_states now m user :
  conversation_states (swept settings now m) !! user
  = if active_at settings now m user then conversation_states m !! user else None.
Proof.
  unfold swept. rewrite forget_all_states.
  destruct (active_at settings now m user) eqn:Ha.
  - rewrite bool_decide_eq_false_2; [done|].
    intros [_ ?]%elem_of_expired_users. congruence.
  - destruct (conversation_states m !! user) as [st|] eqn:Hst.
    + rewrite bool_decide_eq_true_2; [done|].
      apply elem_of_expired_users. by rewrite Hst.
    + by case_bool_decide.
Qed.

Lemma swept_conversations now m user :
  conversations (swept settings now m) !! user
  = if has_key user (conversation_states m) && negb (active_at settings now m user)
    then None else conversations m !! user.
Proof.
  unfold swept. rewrite forget_all_conversations. unfold has_key.
  destruct (conversation_states m !! user) as [st|] eqn:Hst; simpl.
  - destruct (active_at settings now m user) eqn:Ha; simpl.
    + rewrite bool_decide_eq_false_2; [done|].
      intros [_ ?]%elem_of_expired_users. congruence.
    + rewrite bool_decide_eq_true_2; [done|].
      apply elem_of_expired_users. by rewrite Hst.
  - rewrite bool_decide_eq_false_2; [done|].
    intros [[? ?] _]%elem_of_expired_users. congruence.
Qed.
End StoreRuns.

(** ** Signs and comparisons of binary64 numbers *)

Ltac destruct_bools :=
  repeat match goal with s : bool |- _ => destruct s end.

Lemma shr_1_nonneg mrs : 0 <= shr_m mrs -> 0 <= shr_m (shr_1 mrs).
Proof.
  destruct mrs as [m r s]. simpl.
  destruct m as [|p|p]; simpl; try lia; destruct p; simpl; lia.
Qed.

Lemma iter_shr_1_nonneg p mrs :
  0 <= shr_m mrs -> 0 <= shr_m (SpecFloat.iter_pos shr_1 p mrs).
Proof.
  revert mrs. induction p as [p IH|p IH|]; intros mrs H; simpl.
  - apply IH, IH. by apply shr_1_nonneg.
  - by apply IH, IH.
  - by apply shr_1_nonneg.
Qed.

Lemma shr_nonneg mrs e n : 0 <= shr_m mrs -> 0 <= shr_m (shr mrs e n).1.
Proof.
  intros H. destruct n; simpl; try done. by apply iter_shr_1_nonneg.
Qed.

Lemma shr_record_of_loc_m m l : shr_m (shr_record_of_loc m l) = m.
Proof. destruct l as [|[]]; reflexivity. Qed.

Lemma shr_fexp_nonneg m e l : 0 <= m -> 0 <= shr_m (shr_fexp prec emax m e l).1.
Proof.
  intros H. unfold shr_fexp. apply shr_nonneg. by rewrite shr_record_of_loc_m.
Qed.

Lemma round_nearest_even_nonneg m l : 0 <= m -> 0 <= round_nearest_even m l.
Proof.
  intros H. unfold round_nearest_even.
  destruct l as [|[]]; try done; try lia. destruct (Z.even m); lia.
Qed.

Lemma binary_round_aux_nonneg mx ex lx :
  0 <= mx -> nonneg (binary_round_aux prec emax false mx ex lx) = true.
Proof.
  intros H. unfold binary_round_aux.
  pose proof (shr_fexp_nonneg mx ex lx H) as H1.
  destruct (shr_fexp prec emax mx ex lx) as [mrs' e'] eqn:E1. simpl in H1.
  pose proof (shr_fexp_nonneg _ e' loc_Exact
                (round_nearest_even_nonneg _ (loc_of_shr_record mrs') H1)) as H2.
  destruct (shr_fexp prec emax _ e' loc_Exact) as [mrs'' e''] eqn:E2. simpl in H2.
  destruct (shr_m mrs''); try lia; [reflexivity|].
  by destruct (e'' <=? emax - prec).
Qed.

Lemma binary_round_nonneg m e : nonneg (binary_round prec emax false m e) = true.
Proof.
  unfold binary_round. destruct (shl_align _ _ _) as [mz ez].
  by apply binary_round_aux_nonneg.
Qed.

Lemma binary_normalize_nonneg n :
  0 <= n -> nonneg (binary_normalize prec emax n 0 false) = true.
Proof.
  intros H. destruct n as [|p|p]; simpl; [reflexivity | apply binary_round_nonneg | lia].
Qed.

Lemma of_int_nonneg n x :
  0 <= n -> of_int n = Ok x -> nonneg x = true ∧ finite x = true.
Proof.
  intros H. unfold of_int. pose proof (binary_normalize_nonneg n H) as Hn.
  destruct (binary_normalize prec emax n 0 false); intros [= <-]; try done.
Qed.

Lemma mul_nonneg x y :
  nonneg x = true -> finite x = true -> nonneg y = true -> finite y = true ->
  nonneg (mul x y) = true.
Proof.
  destruct x as [sx|sx| |sx mx ex], y as [sy|sy| |sy my ey]; simpl; try done;
    intros Hx _ Hy _; destruct_bools; simpl in *; try done.
  by apply binary_round_aux_nonneg.
Qed.

Lemma add_nonneg x y :
  nonneg x = true -> nonneg y = true -> nonneg (add x y) = true.
Proof.
  destruct x as [sx|sx| |sx mx ex], y as [sy|sy| |sy my ey]; simpl; try done;
    intros Hx Hy; destruct_bools; simpl in *; try done.
  apply binary_round_nonneg.
Qed.

Lemma compare_antisym x y :
  SFcompare y x = option_map CompOpp (SFcompare x y).
Proof.
  destruct x as [sx|sx| |sx mx ex], y as [sy|sy| |sy my ey]; simpl; try done;
    try (by destruct sx); try (by destruct sy); try (by destruct sx, sy).
  destruct sx, sy; simpl; try done; f_equal;
    rewrite (Z.compare_antisym ex ey); destruct (ex ?= ey); simpl; try done;
    rewrite (Pos.compare_cont_antisym); simpl; try done.
  by rewrite CompOpp_involutive.
Qed.

Lemma ltb_negb_leb a b :
  nonneg a = true -> nonneg b = true -> ltb b a = negb (leb a b).
Proof.
  intros Ha Hb. unfold ltb, leb, SFltb, SFleb. rewrite (compare_antisym a b).
  destruct (SFcompare a b) as [[]|] eqn:E; simpl; try done.
  destruct a, b; simpl in *; try done; try (destruct s; done).
  all: try (destruct s, s0; done).
Qed.

Lemma py_min_fmin a b :
  nonneg a = true -> nonneg b = true -> py_min a b = Reference.fmin a b.
Proof.
  intros Ha Hb. unfold py_min, Reference.fmin. rewrite ltb_negb_leb by done.
  by destruct (leb a b).
Qed.

Lemma mul_comm x y : mul x y = mul y x.
Proof.
  destruct x as [sx|sx| |sx mx ex], y as [sy|sy| |sy my ey]; simpl;
    try done; try (by rewrite xorb_comm).
  by rewrite xorb_comm, Pos.mul_comm, Z.add_comm.
Qed.

Lemma py_min_nonneg a b : nonneg a = true -> nonneg b = true -> nonneg (py_min a b) = true.
Proof. intros. unfold py_min. by destruct (ltb b a). Qed.

Lemma ltb_leb x y : ltb x y = true -> leb x y = true.
Proof. unfold ltb, leb, SFltb, SFleb. by destruct (SFcompare x y) as [[]|]. Qed.

Lemma leb_zero_nonneg x : nonneg x = true -> leb f_0_0 x = true.
Proof. destruct x as [s|s| |s m e]; simpl; try done; by destruct s. Qed.

Lemma py_min_bounds S :
  nonneg S = true ->
  leb f_0_0 (py_min f_0_95 S) = true ∧ leb (py_min f_0_95 S) f_0_95 = true.
Proof.
  intros H. split.
  - apply leb_zero_nonneg. by apply py_min_nonneg.
  - unfold py_min. destruct (ltb S f_0_95) eqn:E; [by apply ltb_leb | reflexivity].
Qed.

(** ** Conversion of a length to a float does not overflow *)

Lemma digits_shr_1 mrs :
  0 <= shr_m mrs ->
  Zdigits2 (shr_m (shr_1 mrs)) <= Z.max 0 (Zdigits2 (shr_m mrs) - 1).
Proof.
  destruct mrs as [m r s]. simpl.
  destruct m as [|p|p]; simpl; try lia; destruct p; simpl; lia.
Qed.

Lemma digits_iter_shr_1 p mrs :
  0 <= shr_m mrs ->
  Zdigits2 (shr_m (SpecFloat.iter_pos shr_1 p mrs))
  <= Z.max 0 (Zdigits2 (shr_m mrs) - Z.pos p).
Proof.
  revert mrs. induction p as [p IH|p IH|]; intros mrs H; simpl.
  - pose proof (shr_1_nonneg mrs H) as H1.
    pose proof (iter_shr_1_nonneg p _ H1) as H2.
    pose proof (digits_shr_1 mrs H). pose proof (IH _ H1). pose proof (IH _ H2). lia.
  - pose proof (iter_shr_1_nonneg p _ H) as H2.
    pose proof (IH _ H). pose proof (IH _ H2). lia.
  - by apply digits_shr_1.
Qed.

(** After [shr_fexp] the exponent is the old one or the one [fexp]
    asks for, and digits plus exponent has not grown beyond either. *)
Lemma shr_fexp_bounds m e l :
  0 <= m ->
  let r := shr_fexp prec emax m e l in
  r.2 <= Z.max e (fexp prec emax (Zdigits2 m + e))
  ∧ Zdigits2 (shr_m r.1) + r.2
    <= Z.max (Zdigits2 m + e) (fexp prec emax (Zdigits2 m + e)).
Proof.
  intros H. unfold shr_fexp, shr. cbn zeta.
  set (fe := fexp prec emax (Zdigits2 m + e)).
  destruct (fe - e) as [|p|p] eqn:E; simpl; rewrite ?shr_record_of_loc_m; try lia.
  pose proof (digits_iter_shr_1 p (shr_record_of_loc m l)) as Hd.
  rewrite shr_record_of_loc_m in Hd. specialize (Hd H). lia.
Qed.

Lemma digits_succ p : Z.pos (digits2_pos (Pos.succ p)) <= Z.pos (digits2_pos p) + 1.
Proof. induction p as [p IH|p IH|]; simpl; lia. Qed.

Lemma digits_round_nearest_even m l :
  0 <= m -> Zdigits2 (round_nearest_even m l) <= Zdigits2 m + 1.
Proof.
  intros H.
  assert (Hsucc : Zdigits2 (m + 1) <= Zdigits2 m + 1).
  { destruct m as [|p|p]; simpl; try lia.
    rewrite Pos.add_1_r. apply digits_succ. }
  unfold round_nearest_even. destruct l as [|[]]; try lia.
  destruct (Z.even m); lia.
Qed.

Lemma fexp_le x : x <= 1024 -> fexp prec emax x <= 971.
Proof. unfold fexp, SpecFloat.emin, prec, emax. lia. Qed.

Lemma binary_round_aux_finite mx ex lx :
  0 <= mx -> ex <= 971 -> Zdigits2 mx + ex <= 1023 ->
  finite (binary_round_aux prec emax false mx ex lx) = true.
Proof.
  intros Hm He Hd. unfold binary_round_aux.
  pose proof (shr_fexp_nonneg mx ex lx Hm) as Hn1.
  pose proof (shr_fexp_bounds mx ex lx Hm) as [He1 Hd1].
  pose proof (fexp_le (Zdigits2 mx + ex) ltac:(lia)) as Hf1.
  destruct (shr_fexp prec emax mx ex lx) as [mrs' e'] eqn:E1. simpl in Hn1, He1, Hd1.
  set (m1 := round_nearest_even (shr_m mrs') (loc_of_shr_record mrs')).
  pose proof (round_nearest_even_nonneg _ (loc_of_shr_record mrs') Hn1) as Hm1.
  pose proof (digits_round_nearest_even _ (loc_of_shr_record mrs') Hn1) as Hdm1.
  fold m1 in Hm1, Hdm1.
  pose proof (shr_fexp_bounds m1 e' loc_Exact Hm1) as [He2 _].
  pose proof (shr_fexp_nonneg m1 e' loc_Exact Hm1) as Hn2.
  pose proof (fexp_le (Zdigits2 m1 + e') ltac:(lia)) as Hf2.
  destruct (shr_fexp prec emax m1 e' loc_Exact) as [mrs'' e''] eqn:E2.
  simpl in He2, Hn2.
  destruct (shr_m mrs'') as [|q|q]; [done| |lia].
  unfold emax, prec. by rewrite (proj2 (Z.leb_le e'' (1024 - 53)) ltac:(lia)).
Qed.

Lemma digits_iter_xO d p :
  Z.pos (digits2_pos (Pos.iter xO p d)) = Z.pos (digits2_pos p) + Z.pos d.
Proof.
  induction d as [|d IH] using Pos.peano_ind.
  - simpl. lia.
  - rewrite Pos.iter_succ. simpl. lia.
Qed.

Lemma binary_round_finite p :
  Z.pos (digits2_pos p) <= 1023 ->
  finite (binary_round prec emax false p 0) = true.
Proof.
  intros Hd. unfold binary_round, shl_align.
  set (ex' := fexp prec emax (Z.pos (digits2_pos p) + 0)).
  destruct (ex' - 0) as [|d|d] eqn:E.
  - apply binary_round_aux_finite; simpl; lia.
  - apply binary_round_aux_finite; simpl; lia.
  - apply binary_round_aux_finite; [lia|lia|].
    simpl. rewrite digits_iter_xO. lia.
Qed.

Lemma digits_below p k : 0 <= k -> Z.pos p < 2 ^ k -> Z.pos (digits2_pos p) <= k.
Proof.
  revert k. induction p as [p IH|p IH|]; intros k Hk Hlt; simpl.
  - assert (0 < k) by (destruct (Z.eq_dec k 0) as [->|]; [simpl in Hlt; lia|lia]).
    replace k with (Z.succ (k - 1)) in Hlt by lia.
    rewrite Z.pow_succ_r in Hlt by lia.
    specialize (IH (k - 1) ltac:(lia) ltac:(lia)). lia.
  - assert (0 < k) by (destruct (Z.eq_dec k 0) as [->|]; [simpl in Hlt; lia|lia]).
    replace k with (Z.succ (k - 1)) in Hlt by lia.
    rewrite Z.pow_succ_r in Hlt by lia.
    specialize (IH (k - 1) ltac:(lia) ltac:(lia)). lia.
  - destruct (Z.eq_dec k 0) as [->|]; [simpl in Hlt; lia|lia].
Qed.

(** Every length a Python list or string can have converts to a float:
    [of_int] raises only from [2^1023] on. *)
Lemma of_int_in_range n :
  0 <= n < 2 ^ 1023 -> ∃ x, of_int n = Ok x.
Proof.
  intros [H0 Hlt]. unfold of_int.
  destruct n as [|p|p]; [by eexists| |lia].
  pose proof (binary_round_finite p (digits_below p 1023 ltac:(lia) Hlt)) as Hfin.
  unfold binary_normalize.
  destruct (binary_round prec emax false p 0); try done; by eexists.
Qed.

(** ** The confidence score *)

Lemma fmin_nonneg a b :
  nonneg a = true -> nonneg b = true -> nonneg (Reference.fmin a b) = true.
Proof. intros. unfold Reference.fmin. by destruct (leb a b). Qed.

Lemma doc_word_set_fold documents (acc : gset string) :
  fold_left (fun acc doc => acc ∪ word_set (page_content doc)) documents acc
  = acc ∪ list_to_set (flat_map (fun c => Reference.tokens (page_content c)) documents).
Proof.
  revert acc. induction documents as [|d rest IH]; intros acc; simpl.
  - by rewrite (right_id_L ∅ (∪)).
  - rewrite IH. unfold word_set, Reference.tokens.
    rewrite list_to_set_app_L. by rewrite (assoc_L (∪)).
Qed.

Lemma doc_word_set_tokens documents :
  doc_word_set documents
  = list_to_set (flat_map (fun c => Reference.tokens (page_content c)) documents).
Proof. unfold doc_word_set. rewrite doc_word_set_fold. by rewrite (left_id_L ∅ (∪)). Qed.

Lemma keyword_overlap_reference documents question :
  size (word_set question ∩ doc_word_set documents)
  = Reference.overlap documents question.
Proof.
  rewrite doc_word_set_tokens. unfold Reference.overlap, word_set, size, set_size.
  simpl. fold (Reference.tokens question).
  apply Permutation_length, NoDup_Permutation.
  - apply NoDup_elements.
  - apply NoDup_filter, NoDup_remove_dups.
  - intros t. rewrite elem_of_elements, elem_of_intersection, !elem_of_list_to_set.
    rewrite list_elem_of_filter, elem_of_remove_dups. tauto.
Qed.

Lemma calculate_confidence_run documents question w :
  _calculate_confidence documents question w
  = (Ok (Reference.score documents question), w).
Proof.
  unfold _calculate_confidence, confidence_body, Reference.score.
  destruct documents as [|d rest]; [reflexivity|].
  set (docs := d :: rest).
  rewrite <- keyword_overlap_reference.
  unfold try_except, bind, lift_result, ret.
  destruct (of_int (Z.of_nat (length docs))) as [n|] eqn:En; [|reflexivity].
  destruct (of_int (Z.of_nat (size (word_set question ∩ doc_word_set docs))))
    as [k|] eqn:Ek; [|reflexivity].
  apply of_int_nonneg in En as [Hn Hfn]; [|lia].
  apply of_int_nonneg in Ek as [Hk Hfk]; [|lia].
  assert (Hbase : nonneg (add f_0_3 (mul n f_0_1)) = true).
  { apply add_nonneg; [done|]. by apply mul_nonneg. }
  assert (Hboost : nonneg (mul k f_0_02) = true) by by apply mul_nonneg.
  rewrite (mul_comm f_0_1 n), (mul_comm f_0_02 k).
  rewrite (py_min_fmin f_0_8), (py_min_fmin f_0_2), (py_min_fmin f_0_95);
    try done.
  apply add_nonneg; by apply fmin_nonneg.
Qed.

Lemma reference_score_bounds documents question :
  leb f_0_0 (Reference.score documents question) = true
  ∧ leb (Reference.score documents question) f_0_95 = true.
Proof.
  unfold Reference.score.
  destruct documents as [|d rest]; [by split|].
  set (docs := d :: rest).
  destruct (of_int (Z.of_nat (length docs))) as [n|] eqn:En; [|by split].
  destruct (of_int (Z.of_nat (Reference.overlap docs question)))
    as [k|] eqn:Ek; [|by split].
  apply of_int_nonneg in En as [Hn Hfn]; [|lia].
  apply of_int_nonneg in Ek as [Hk Hfk]; [|lia].
  assert (Hbase : nonneg (add f_0_3 (mul f_0_1 n)) = true).
  { apply add_nonneg; [done|]. by apply mul_nonneg. }
  assert (Hboost : nonneg (mul f_0_02 k) = true) by by apply mul_nonneg.
  assert (Hsum : nonneg (add (Reference.fmin f_0_8 (add f_0_3 (mul f_0_1 n)))
                             (Reference.fmin f_0_2 (mul f_0_02 k))) = true).
  { apply add_nonneg; by apply fmin_nonneg. }
  rewrite <- (py_min_fmin f_0_95) by done. by apply py_min_bounds.
Qed.

(** ** What the orchestrator computes *)

Section OrchestratorRuns.
Variable settings : Settings.
Variable self : ChatbotService.

Lemma log_calls_nil w : log_calls [] w = w.
Proof. destruct w. unfold log_calls. simpl. by rewrite app_nil_r. Qed.

Lemma log_call_log_calls c cs w :
  log_call c (log_calls cs w) = log_calls (cs ++ [c]) w.
Proof. unfold log_call, log_calls. simpl. by rewrite app_assoc. Qed.

Lemma get_formatted_chat_history_run user w :
  _get_formatted_chat_history user w
  = (Ok (slice_from (-5) (pair_up (history_of (memory_service w) user))), w).
Proof.
  unfold _get_formatted_chat_history, try_except, bind.
  by rewrite get_conversation_history_run.
Qed.

(** [search_documents] never raises, and calls the retriever at most once. *)
Lemma search_documents_run pdf query k w :
  ∃ docs cs,
    search_documents pdf query k w = (Ok docs, log_calls cs w)
    ∧ (cs = [] ∨ cs = [RetrieverCall query k]).
Proof.
  unfold search_documents, try_except, external_call, bind, modify, lift_result, ret.
  destruct (vectorstore pdf) as [similarity_search|].
  - destruct (similarity_search query k) as [docs|].
    + exists docs, [RetrieverCall query k]. split; [reflexivity | by right].
    + exists [], [RetrieverCall query k]. split; [reflexivity | by right].
  - exists [], []. rewrite log_calls_nil. split; [reflexivity | by left].
Qed.

Lemma generate_fallback_response_run message w :
  ∃ text,
    _generate_fallback_response self message w
    = (Ok text, log_call (GeneratorCall (fallback_prompt_format message)) w)
    ∧ (chat_model self (fallback_prompt_format message) = Raise ->
       text = basic_fallback_text).
Proof.
  unfold _generate_fallback_response, try_except, external_call, bind, modify,
    lift_result, ret.
  destruct (chat_model self (fallback_prompt_format message)) as [content|].
  - exists (PyStr.strip content). by split.
  - exists basic_fallback_text. by split.
Qed.

Lemma generate_response_with_context_run question documents chat_history w :
  ∃ text conf srcs,
    _generate_response_with_context self question documents chat_history w
    = (Ok (text, conf, srcs),
       log_call (GeneratorCall (grounded_prompt question documents chat_history)) w)
    ∧ (chat_model self (grounded_prompt question documents chat_history) = Raise ->
       text = generation_error_text ∧ conf = f_0_0 ∧ srcs = [])
    ∧ (∀ content,
        chat_model self (grounded_prompt question documents chat_history) = Ok content ->
        text = PyStr.strip content
        ∧ conf = Reference.score documents question
        ∧ srcs = distinct_sources documents).
Proof.
  unfold _generate_response_with_context, external_call.
  fold (grounded_prompt question documents chat_history).
  set (prompt := grounded_prompt question documents chat_history).
  unfold try_except, bind, modify, lift_result.
  destruct (chat_model self prompt) as [content|].
  - rewrite calculate_confidence_run.
    exists (PyStr.strip content), (Reference.score documents question),
      (distinct_sources documents).
    split; [reflexivity|]. split; [done|]. by intros ? [= <-].
  - exists generation_error_text, f_0_0, []. split; [reflexivity|]. by split.
Qed.
End OrchestratorRuns.

Section Orchestrator.
Variable settings : Settings.
Variable self : ChatbotService.

(** On an initialized service [process_message] returns a response,
    after [add_message] and then [cleanup_expired_conversations] have run
    on the world in which the external calls [cs] are logged. *)
Lemma process_message_run user message w :
  is_initialized self = true ->
  ∃ docs text conf srcs cs prompt,
    process_message settings self user message w
    = (Ok {| response := text; confidence := Some conf; sources := Some srcs |},
       exec (cleanup_expired_conversations settings)
         (exec (add_message settings user message text) (log_calls cs w)))
    ∧ eval (search_documents (pdf_processor self) message 5) w = Ok docs
    ∧ (cs = [GeneratorCall prompt]
       ∨ cs = [RetrieverCall message 5; GeneratorCall prompt])
    ∧ (docs = [] ->
       prompt = fallback_prompt_format message ∧ conf = f_0_3 ∧ srcs = []
       ∧ (chat_model self prompt = Raise -> text = basic_fallback_text))
    ∧ (docs ≠ [] ->
       prompt = grounded_prompt message docs (history_window w user)
       ∧ (chat_model self prompt = Raise ->
          text = generation_error_text ∧ conf = f_0_0 ∧ srcs = [])
       ∧ (∀ content, chat_model self prompt = Ok content ->
          text = PyStr.strip content ∧ conf = Reference.score docs message
          ∧ srcs = distinct_sources docs)).
Proof.
  intros Hinit. unfold process_message. rewrite Hinit. simpl negb. cbv iota.
  unfold try_except at 1. unfold bind at 1.
  rewrite get_formatted_chat_history_run. fold (history_window w user).
  unfold bind at 1. unfold eval.
  destruct (search_documents_run (pdf_processor self) message 5 w)
    as (docs & cs & -> & Hcs).
  simpl fst. unfold bind at 1.
  destruct docs as [|d rest].
  - unfold bind at 1.
    destruct (generate_fallback_response_run self message (log_calls cs w))
      as (text & -> & Hraise).
    unfold ret at 1. rewrite log_call_log_calls.
    unfold bind at 1. rewrite add_message_run.
    unfold bind at 1. rewrite cleanup_expired_conversations_run.
    exists [], text, f_0_3, [], (cs ++ [GeneratorCall (fallback_prompt_format message)])%list,
      (fallback_prompt_format message).
    split; [|split; [reflexivity|split]].
    + unfold exec. rewrite add_message_run. simpl snd.
      by rewrite cleanup_expired_conversations_run.
    + destruct Hcs as [-> | ->]; [by left | by right].
    + split; [done|]. intros Hne. by destruct Hne.
  - set (docs := d :: rest).
    destruct (generate_response_with_context_run self message docs
                (history_window w user) (log_calls cs w))
      as (text & conf & srcs & -> & Hraise & Hok).
    rewrite log_call_log_calls.
    unfold bind at 1. rewrite add_message_run.
    unfold bind at 1. rewrite cleanup_expired_conversations_run.
    exists docs, text, conf, srcs,
      (cs ++ [GeneratorCall (grounded_prompt message docs (history_window w user))])%list,
      (grounded_prompt message docs (history_window w user)).
    split; [|split; [reflexivity|split]].
    + unfold exec. rewrite add_message_run. simpl snd.
      by rewrite cleanup_expired_conversations_run.
    + destruct Hcs as [-> | ->]; [by left | by right].
    + split; [done|]. intros _. done.
Qed.

Lemma process_message_uninitialized user message w :
  is_initialized self = false ->
  process_message settings self user message w
  = (Ok {| response := unavailable_text; confidence := Some f_0_0; sources := None |}, w).
Proof. intros Hinit. unfold process_message. by rewrite Hinit. Qed.

End Orchestrator.

(** ** Histories: the cap and the pairing of entries *)

Section StoreHistory.
Variable settings : Settings.

Lemma memory_after_add_message user human_message ai_response w :
  memory_service (exec (add_message settings user human_message ai_response) w)
  = appended settings (clock w) user human_message ai_response (memory_service w).
Proof. unfold exec. by rewrite add_message_run. Qed.

Lemma keep_recent_messages st :
  messages (keep_recent settings st) = trimmed settings (messages st).
Proof.
  unfold keep_recent, trimmed.
  by destruct (Z.of_nat (length (messages st)) >? max_conversation_history settings * 2).
Qed.

Lemma appended_history now user human_message ai_response m :
  history_of (appended settings now user human_message ai_response m) user
  = trimmed settings
      (base_history settings now m user
       ++ [human_entry human_message now; ai_entry ai_response now]).
Proof.
  unfold appended, history_of, base_history. simpl.
  rewrite lookup_alter_eq.
  pose proof (has_key_ensure_session settings now user m) as Hk.
  unfold has_key in Hk.
  destruct (conversation_states (ensure_session settings now user m) !! user)
    as [st|]; [|discriminate].
  simpl. unfold record_exchange. rewrite keep_recent_messages. simpl.
  by rewrite <- app_assoc.
Qed.

Lemma appended_last_activity now user human_message ai_response m :
  last_activity <$> conversation_states
                      (appended settings now user human_message ai_response m) !! user
  = Some now.
Proof.
  unfold appended. simpl. rewrite lookup_alter_eq.
  pose proof (has_key_ensure_session settings now user m) as Hk.
  unfold has_key in Hk.
  destruct (conversation_states (ensure_session settings now user m) !! user)
    as [st|]; [|discriminate].
  simpl. unfold record_exchange, keep_recent.
  by destruct (_ >? _).
Qed.

Lemma appended_has_buffer now user human_message ai_response m :
  has_key user (conversations (appended settings now user human_message ai_response m))
  = true.
Proof.
  unfold appended, has_key. simpl. rewrite lookup_alter_eq.
  unfold ensure_session.
  destruct (has_key user (conversations m) && active_at settings now m user) eqn:E.
  - apply andb_true_iff in E as [E _]. unfold has_key in E.
    by destruct (conversations m !! user).
  - simpl. by rewrite lookup_insert_eq.
Qed.

Lemma trimmed_last_n l :
  1 <= max_conversation_history settings ->
  trimmed settings l
  = last_n (2 * Z.to_nat (max_conversation_history settings)) l.
Proof.
  intros HM. unfold trimmed, last_n, slice_from.
  set (M := max_conversation_history settings) in *.
  destruct (Z.of_nat (length l) >? M * 2) eqn:E.
  - apply Z.gtb_lt in E.
    destruct (- M * 2 <? 0) eqn:E2; [|apply Z.ltb_ge in E2; lia].
    f_equal. lia.
  - rewrite Z.gtb_ltb in E. apply Z.ltb_ge in E.
    replace (length l - 2 * Z.to_nat M)%nat with 0%nat by lia. reflexivity.
Qed.

Lemma entries_app xs ys : entries (xs ++ ys) = entries xs ++ entries ys.
Proof. unfold entries. apply flat_map_app. Qed.

Lemma length_entries xs : length (entries xs) = (2 * length xs)%nat.
Proof. induction xs as [|x xs IH]; simpl; [done|]. rewrite IH. lia. Qed.

Lemma drop_entries k xs : drop (2 * k) (entries xs) = entries (drop k xs).
Proof.
  revert xs. induction k as [|k IH]; intros xs; [done|].
  destruct xs as [|x xs]; [done|].
  replace (2 * S k)%nat with (S (S (2 * k))) by lia. simpl. apply IH.
Qed.

Lemma last_n_entries n xs : last_n (2 * n) (entries xs) = entries (last_n n xs).
Proof.
  unfold last_n. rewrite length_entries, <- drop_entries. f_equal. lia.
Qed.

Lemma last_n_app_last_n {A} n (l k : list A) :
  last_n n (last_n n l ++ k) = last_n n (l ++ k).
Proof.
  unfold last_n. rewrite !length_app, length_drop.
  rewrite !drop_app, drop_drop, length_drop.
  f_equal; [f_equal; lia | f_equal; lia].
Qed.

Lemma length_last_n {A} n (l : list A) : length (last_n n l) = Nat.min (length l) n.
Proof. unfold last_n. rewrite length_drop. lia. Qed.

Lemma pair_up_entries xs :
  pair_up (entries xs) = map (fun x => {| human := x.1.2; ai := x.2 |}) xs.
Proof. induction xs as [|x xs IH]; simpl; [done|]. by rewrite IH. Qed.

(** One append to a session that is still active. *)
Lemma append_to_active user x w st ys :
  1 <= max_conversation_history settings ->
  has_key user (conversations (memory_service w)) = true ->
  conversation_states (memory_service w) !! user = Some st ->
  messages st = entries ys ->
  x.1.1 - last_activity st
    < conversation_timeout settings * microseconds_per_second ->
  let w' := exec (add_message settings user x.1.2 x.2) (set_clock x.1.1 w) in
  has_key user (conversations (memory_service w')) = true
  ∧ ∃ st', conversation_states (memory_service w') !! user = Some st'
           ∧ messages st'
             = entries (last_n (Z.to_nat (max_conversation_history settings))
                          (ys ++ [x]))
           ∧ last_activity st' = x.1.1.
Proof.
  intros HM Hbuf Hst Hms Hlt w'. subst w'.
  rewrite memory_after_add_message.
  change (clock (set_clock x.1.1 w)) with x.1.1.
  change (memory_service (set_clock x.1.1 w)) with (memory_service w).
  split; [apply appended_has_buffer|].
  pose proof (appended_history x.1.1 user x.1.2 x.2 (memory_service w)) as Hh.
  pose proof (appended_last_activity x.1.1 user x.1.2 x.2 (memory_service w)) as Hl.
  unfold history_of in Hh.
  destruct (conversation_states (appended settings x.1.1 user x.1.2 x.2 (memory_service w))
              !! user) as [st'|]; [|discriminate].
  exists st'. split; [done|]. simpl in Hl. split; [|congruence].
  rewrite Hh. unfold base_history, ensure_session.
  rewrite Hbuf. unfold active_at at 1. rewrite Hst.
  rewrite (proj2 (Z.ltb_lt _ _) Hlt). simpl. rewrite Hst, Hms.
  rewrite trimmed_last_n by done.
  change [human_entry x.1.2 x.1.1; ai_entry x.2 x.1.1] with (entries [x]).
  by rewrite <- entries_app, last_n_entries.
Qed.

Lemma run_appends_active user xs : ∀ w st ys,
  1 <= max_conversation_history settings ->
  has_key user (conversations (memory_service w)) = true ->
  conversation_states (memory_service w) !! user = Some st ->
  messages st = entries ys ->
  (length ys <= Z.to_nat (max_conversation_history settings))%nat ->
  within_timeout settings (last_activity st) xs ->
  history_of (memory_service (run_appends settings user xs w)) user
  = entries (last_n (Z.to_nat (max_conversation_history settings)) (ys ++ xs)).
Proof.
  induction xs as [|x xs IH]; intros w st ys HM Hbuf Hst Hms Hlen Hin.
  - simpl. unfold history_of. rewrite Hst, Hms, app_nil_r.
    unfold last_n. by replace (length ys - _)%nat with 0%nat by lia.
  - destruct Hin as [Hlt Hin]. simpl.
    destruct (append_to_active user x w st ys HM Hbuf Hst Hms Hlt)
      as (Hbuf' & st' & Hst' & Hms' & Hact').
    rewrite <- Hact' in Hin.
    rewrite (IH _ st' _ HM Hbuf' Hst' Hms' ltac:(rewrite length_last_n; lia) Hin).
    by rewrite last_n_app_last_n, <- app_assoc.
Qed.

(** The first append creates the session of a user who has none. *)
Lemma append_to_absent user x w :
  1 <= max_conversation_history settings ->
  conversation_states (memory_service w) !! user = None ->
  let w' := exec (add_message settings user x.1.2 x.2) (set_clock x.1.1 w) in
  has_key user (conversations (memory_service w')) = true
  ∧ ∃ st', conversation_states (memory_service w') !! user = Some st'
           ∧ messages st' = entries [x]
           ∧ last_activity st' = x.1.1.
Proof.
  intros HM Hst w'. subst w'.
  rewrite memory_after_add_message.
  change (clock (set_clock x.1.1 w)) with x.1.1.
  change (memory_service (set_clock x.1.1 w)) with (memory_service w).
  split; [apply appended_has_buffer|].
  pose proof (appended_history x.1.1 user x.1.2 x.2 (memory_service w)) as Hh.
  pose proof (appended_last_activity x.1.1 user x.1.2 x.2 (memory_service w)) as Hl.
  unfold history_of in Hh.
  destruct (conversation_states (appended settings x.1.1 user x.1.2 x.2 (memory_service w))
              !! user) as [st'|]; [|discriminate].
  exists st'. split; [done|]. simpl in Hl. split; [|congruence].
  rewrite Hh. unfold base_history, ensure_session.
  unfold active_at at 1. rewrite Hst, andb_false_r. simpl.
  rewrite lookup_insert_eq. simpl.
  rewrite trimmed_last_n by done. unfold last_n.
  change (length _) with 2%nat.
  by replace (2 - 2 * Z.to_nat (max_conversation_history settings))%nat with 0%nat by lia.
Qed.

(** With a cap [M >= 1], [N] appends made within the timeout of one
    another, for a user who had no session, leave the [min N M] most
    recent exchanges, oldest first. *)
Lemma appends_keep_most_recent user xs w :
  1 <= max_conversation_history settings ->
  conversation_states (memory_service w) !! user = None ->
  match xs with [] => True | x :: rest => within_timeout settings x.1.1 rest end ->
  let stored := history_of (memory_service (run_appends settings user xs w)) user in
  stored = entries (last_n (Z.to_nat (max_conversation_history settings)) xs)
  ∧ length (pair_up stored)
    = Nat.min (length xs) (Z.to_nat (max_conversation_history settings)).
Proof.
  intros HM Hst Hin stored.
  assert (Hstored :
    stored = entries (last_n (Z.to_nat (max_conversation_history settings)) xs)).
  { subst stored. destruct xs as [|x rest].
    - simpl. unfold history_of. by rewrite Hst.
    - simpl.
      destruct (append_to_absent user x w HM Hst) as (Hbuf' & st' & Hst' & Hms' & Hact').
      rewrite <- Hact' in Hin.
      by rewrite (run_appends_active user rest _ st' [x] HM Hbuf' Hst' Hms'
                    ltac:(simpl; lia) Hin). }
  split; [done|].
  by rewrite Hstored, pair_up_entries, length_map, length_last_n.
Qed.
End StoreHistory.

Section StorePairs.
Variable settings : Settings.

Lemma length_slice_from {A} start (l : list A) :
  Z.of_nat (length (slice_from start l))
  = Z.of_nat (length l)
    - (if start <? 0 then Z.max 0 (start + Z.of_nat (length l))
       else Z.min start (Z.of_nat (length l))).
Proof.
  unfold slice_from. rewrite length_drop.
  destruct (start <? 0) eqn:E; [apply Z.ltb_lt in E | apply Z.ltb_ge in E]; lia.
Qed.

Lemma even_trimmed l :
  Nat.Even (length l) -> Nat.Even (length (trimmed settings l)).
Proof.
  intros [k Hk]. unfold trimmed.
  set (M := max_conversation_history settings).
  destruct (Z.of_nat (length l) >? M * 2) eqn:E; [|by exists k].
  apply Z.gtb_lt in E.
  pose proof (length_slice_from (- M * 2) l) as Hlen.
  destruct (- M * 2 <? 0) eqn:E2; [apply Z.ltb_lt in E2 | apply Z.ltb_ge in E2].
  - exists (Z.to_nat M). lia.
  - destruct (Z_le_gt_dec (- M * 2) (Z.of_nat (length l))).
    + exists (k - Z.to_nat (- M))%nat. lia.
    + exists 0%nat. lia.
Qed.

Lemma pair_up_length l :
  Nat.Even (length l) -> (2 * length (pair_up l))%nat = length l.
Proof.
  intros [k Hk]. revert l Hk. induction k as [|k IH]; intros l Hk.
  - by destruct l.
  - destruct l as [|h [|a rest]]; simpl in Hk; try lia.
    simpl. rewrite <- (IH rest) by lia. lia.
Qed.

Lemma even_nil : Nat.Even (length (@nil Message)).
Proof. by exists 0%nat. Qed.

Lemma paired_ensure_session now user m :
  paired m -> paired (ensure_session settings now user m).
Proof.
  intros Hp u. unfold ensure_session.
  destruct (has_key user (conversations m) && active_at settings now m user);
    [apply Hp|].
  unfold history_of. simpl. destruct (decide (user = u)) as [->|Hne].
  - rewrite lookup_insert_eq. apply even_nil.
  - rewrite lookup_insert_ne by done. apply Hp.
Qed.

Lemma paired_appended now user human_message ai_response m :
  paired m -> paired (appended settings now user human_message ai_response m).
Proof.
  intros Hp u. destruct (decide (user = u)) as [<-|Hne].
  - rewrite appended_history. apply even_trimmed.
    rewrite length_app. simpl.
    destruct (paired_ensure_session now user m Hp user) as [k Hk].
    unfold base_history. unfold history_of in Hk. exists (S k). lia.
  - unfold appended, history_of. simpl. rewrite lookup_alter_ne by done.
    apply (paired_ensure_session now user m Hp u).
Qed.

Lemma paired_cleared now user m : paired m -> paired (cleared now user m).
Proof.
  intros Hp u. unfold cleared, history_of. simpl.
  destruct (decide (user = u)) as [<-|Hne].
  - rewrite lookup_alter_eq. destruct (conversation_states m !! user); apply even_nil.
  - rewrite lookup_alter_ne by done. apply Hp.
Qed.

Lemma paired_swept now m : paired m -> paired (swept settings now m).
Proof.
  intros Hp u. unfold history_of. rewrite swept_states.
  destruct (active_at settings now m u); [apply Hp | apply even_nil].
Qed.

Lemma reachable_paired w : reachable settings w -> paired (memory_service w).
Proof.
  induction 1 as [now|w now _ IH|w c _ IH|w user _ IH|w user h a _ IH
                 |w user _ IH|w _ IH].
  - intros u. apply even_nil.
  - exact IH.
  - exact IH.
  - unfold exec. rewrite get_or_create_memory_run. by apply paired_ensure_session.
  - unfold exec. rewrite add_message_run. by apply paired_appended.
  - unfold exec. rewrite clear_conversation_run. by apply paired_cleared.
  - unfold exec. rewrite cleanup_expired_conversations_run. by apply paired_swept.
Qed.

Lemma get_conversation_summary_count user w :
  ∃ s, eval (get_conversation_summary settings user) w = Ok s
       ∧ summary_message_count s = Some (length (history_of (memory_service w) user)).
Proof.
  unfold eval, get_conversation_summary, history_of, try_except, bind, gets, ret.
  destruct (conversation_states (memory_service w) !! user) as [st|].
  - rewrite is_conversation_active_run. simpl. eexists. by split.
  - simpl. eexists. by split.
Qed.
End StorePairs.

(** * The claims *)

(** ** Session store *)

(** C1, on a concrete run where the code departs from the claim. A
    session last active at time 0 is read 1801 seconds later under the
    default timeout of 1800 seconds. [_is_conversation_active] reports it
    expired, yet [get_conversation_history] returns both stored entries and
    leaves the world, and with it the expired entry, untouched. At the same
    moment [get_or_create_memory] does replace the session by an empty
    one. *)
Theorem expired_history_is_still_returned :
  let w0 := exec (add_message default_settings "u" "hi" "hello") (initial_world 0) in
  let w := set_clock 1801000000 w0 in
  eval (_is_conversation_active default_settings "u") w = Ok false
  ∧ get_conversation_history "u" w
    = (Ok [human_entry "hi" 0; ai_entry "hello" 0], w)
  ∧ history_of (memory_service (exec (get_or_create_memory default_settings "u") w)) "u"
    = [].
Proof. vm_compute. repeat split. Qed.

(** [get_conversation_history] reads no clock and changes nothing, at
    any time and for any store. *)
Lemma get_conversation_history_ignores_expiry user now w :
  get_conversation_history user (set_clock now w)
  = (Ok (history_of (memory_service w) user), set_clock now w).
Proof. by rewrite get_conversation_history_run. Qed.

(** The sibling path: on a session that has timed out,
    [get_or_create_memory] leaves an empty history. *)
Lemma get_or_create_memory_replaces_expired settings user w :
  active_at settings (clock w) (memory_service w) user = false ->
  history_of (memory_service (exec (get_or_create_memory settings user) w)) user = [].
Proof.
  intros Hexpired. unfold exec. rewrite get_or_create_memory_run.
  cbn [snd memory_service set_memory]. unfold ensure_session.
  rewrite Hexpired, andb_false_r. unfold history_of. simpl.
  by rewrite lookup_insert_eq.
Qed.

(** With a cap of zero nothing is ever trimmed. *)
Lemma zero_cap_never_trims settings l :
  max_conversation_history settings = 0 -> trimmed settings l = l.
Proof.
  intros HM. unfold trimmed. rewrite HM.
  destruct (Z.of_nat (length l) >? 0 * 2); [|reflexivity].
  unfold slice_from. simpl. by rewrite Z.min_l by lia.
Qed.

(** C5, on a concrete run where the code departs from the claim. With
    [max_conversation_history = 0] three appends, one second apart, leave
    all three exchanges in the history, while [min 3 0 = 0]: the slice
    [messages[-0:]] is the whole list. *)
Theorem zero_cap_keeps_every_exchange :
  let xs := [(0, "q1", "a1"); (1000000, "q2", "a2"); (2000000, "q3", "a3")] in
  let w := run_appends zero_cap_settings "u" xs (initial_world 0) in
  within_timeout zero_cap_settings 0 xs
  ∧ eval (get_conversation_history "u") w = Ok (entries xs)
  ∧ length (pair_up (history_of (memory_service w) "u")) = 3%nat
  ∧ Nat.min (length xs) (Z.to_nat (max_conversation_history zero_cap_settings)) = 0%nat.
Proof.
  split; [|vm_compute; repeat split].
  simpl. unfold microseconds_per_second. simpl. lia.
Qed.

(** Scenario A of the specification: a cap of four, three appends, and
    the history holds the three exchanges in the order of insertion. *)
Example cap_four_keeps_three :
  let xs := [(0, "q1", "a1"); (1000000, "q2", "a2"); (2000000, "q3", "a3")] in
  let w := run_appends {| max_conversation_history := 4; conversation_timeout := 1800 |}
             "u" xs (initial_world 0) in
  eval (get_conversation_history "u") w = Ok (entries xs)
  ∧ pair_up (history_of (memory_service w) "u")
    = [{| human := "q1"; ai := "a1" |}; {| human := "q2"; ai := "a2" |};
       {| human := "q3"; ai := "a3" |}].
Proof. vm_compute. split; reflexivity. Qed.

(** The same three appends under a cap of two keep the last two. *)
Example cap_two_keeps_last_two :
  let xs := [(0, "q1", "a1"); (1000000, "q2", "a2"); (2000000, "q3", "a3")] in
  history_of
    (memory_service
       (run_appends {| max_conversation_history := 2; conversation_timeout := 1800 |}
          "u" xs (initial_world 0))) "u"
  = entries [(1000000, "q2", "a2"); (2000000, "q3", "a3")].
Proof. vm_compute. reflexivity. Qed.

Lemma get_conversation_summary_run settings user w :
  get_conversation_summary settings user w
  = (Ok (match conversation_states (memory_service w) !! user with
         | None => SummaryNotFound 0
         | Some state =>
             SummaryFound user (length (messages state)) (last_activity state)
               (active_at settings (clock w) (memory_service w) user)
               (match conversations (memory_service w) !! user with
                | Some b => length (chat_memory b)
                | None => 0%nat
                end)
         end), w).
Proof.
  unfold get_conversation_summary, try_except, bind, gets, ret.
  destruct (conversation_states (memory_service w) !! user) as [st|]; [|reflexivity].
  by rewrite is_conversation_active_run.
Qed.

(** C8. For a user with a session, [clear_conversation] returns [True],
    keeps the entry with the same [user_id] and [session_id], no messages
    and [last_activity] set to the current time, empties the buffer if
    there is one, and leaves every other user, the clock and the call log
    as they were. The session is then active exactly when the timeout is
    positive, and its summary counts no messages. *)
Theorem clear_conversation_keeps_the_entry settings user w st :
  conversation_states (memory_service w) !! user = Some st ->
  let w' := exec (clear_conversation user) w in
  eval (clear_conversation user) w = Ok true
  ∧ conversation_states (memory_service w') !! user
    = Some {| user_id := user_id st; messages := [];
              last_activity := clock w; session_id := session_id st |}
  ∧ eval (get_conversation_history user) w' = Ok []
  ∧ conversations (memory_service w') !! user
    = (fun _ => {| chat_memory := [] |}) <$> conversations (memory_service w) !! user
  ∧ eval (_is_conversation_active settings user) w'
    = Ok (0 <? conversation_timeout settings * microseconds_per_second)
  ∧ eval (get_conversation_summary settings user) w'
    = Ok (SummaryFound user 0 (clock w)
            (0 <? conversation_timeout settings * microseconds_per_second) 0)
  ∧ (∀ other, other ≠ user ->
       conversation_states (memory_service w') !! other
       = conversation_states (memory_service w) !! other
       ∧ conversations (memory_service w') !! other
         = conversations (memory_service w) !! other)
  ∧ clock w' = clock w
  ∧ calls w' = calls w.
Proof.
  intros Hst w'. subst w'. unfold eval, exec.
  rewrite clear_conversation_run. simpl fst. simpl snd.
  assert (Hst' : conversation_states (cleared (clock w) user (memory_service w)) !! user
                 = Some {| user_id := user_id st; messages := [];
                           last_activity := clock w; session_id := session_id st |}).
  { unfold cleared. simpl. by rewrite lookup_alter_eq, Hst. }
  assert (Hbuf : conversations (cleared (clock w) user (memory_service w)) !! user
                 = (fun _ => {| chat_memory := [] |}) <$> conversations (memory_service w) !! user).
  { unfold cleared. simpl. by rewrite lookup_alter_eq. }
  repeat split.
  - exact Hst'.
  - rewrite get_conversation_history_run. simpl. unfold history_of. by rewrite Hst'.
  - exact Hbuf.
  - rewrite is_conversation_active_run. simpl. unfold active_at. rewrite Hst'. simpl.
    by rewrite Z.sub_diag.
  - rewrite get_conversation_summary_run. cbn [fst memory_service set_memory clock].
    rewrite Hst', Hbuf. unfold active_at. rewrite Hst'. simpl.
    rewrite Z.sub_diag. by destruct (conversations (memory_service w) !! user).
  - unfold cleared. simpl. by rewrite lookup_alter_ne.
  - unfold cleared. simpl. by rewrite lookup_alter_ne.
Qed.

Lemma clear_conversation_keeps_the_entry_witness :
  let w := set_clock 5000000
             (exec (add_message default_settings "u" "hi" "hello") (initial_world 0)) in
  let st := record_exchange default_settings 0 "hi" "hello" (fresh_state "u" 0) in
  conversation_states (memory_service w) !! "u" = Some st
  ∧ eval (clear_conversation "u") w = Ok true
  ∧ eval (get_conversation_history "u") (exec (clear_conversation "u") w) = Ok []
  ∧ eval (get_conversation_summary default_settings "u")
         (exec (clear_conversation "u") w)
    = Ok (SummaryFound "u" 0 5000000 true 0).
Proof.
  cbn zeta. split; [reflexivity|].
  destruct (clear_conversation_keeps_the_entry default_settings "u"
              (set_clock 5000000
                 (exec (add_message default_settings "u" "hi" "hello") (initial_world 0)))
              (record_exchange default_settings 0 "hi" "hello" (fresh_state "u" 0))
              eq_refl) as (Hret & _ & Hhist & _ & _ & Hsum & _).
  split; [exact Hret|]. split; [exact Hhist | exact Hsum].
Defined.

(** C10. In every world the methods of the store can reach, each stored
    history has an even number of entries and the summary's
    [message_count] is twice the number of exchanges the history pairs up
    into; and one more [add_message] succeeds and stores the history it
    found, when the session is kept, or the empty one, followed by the
    human entry and then the AI entry, trimmed to the cap. *)
Theorem stored_entries_come_in_pairs settings w user :
  reachable settings w ->
  Nat.Even (length (history_of (memory_service w) user))
  ∧ (∃ s, eval (get_conversation_summary settings user) w = Ok s
          ∧ summary_message_count s
            = Some (2 * length (pair_up (history_of (memory_service w) user)))%nat)
  ∧ (∀ human_message ai_response,
       eval (add_message settings user human_message ai_response) w = Ok true
       ∧ history_of
           (memory_service (exec (add_message settings user human_message ai_response) w))
           user
         = trimmed settings
             (base_history settings (clock w) (memory_service w) user
              ++ [human_entry human_message (clock w);
                  ai_entry ai_response (clock w)])).
Proof.
  intros Hreach. pose proof (reachable_paired settings w Hreach user) as Heven.
  split; [exact Heven|]. split.
  - destruct (get_conversation_summary_count settings user w) as (s & Hs & Hcount).
    exists s. split; [exact Hs|]. by rewrite Hcount, pair_up_length.
  - intros human_message ai_response. split.
    + unfold eval. by rewrite add_message_run.
    + rewrite memory_after_add_message. apply appended_history.
Qed.

Lemma stored_entries_come_in_pairs_witness :
  let w := exec (add_message default_settings "u" "hi" "hello") (initial_world 0) in
  reachable default_settings w
  ∧ Nat.Even (length (history_of (memory_service w) "u"))
  ∧ (∃ s, eval (get_conversation_summary default_settings "u") w = Ok s
          ∧ summary_message_count s
            = Some (2 * length (pair_up (history_of (memory_service w) "u")))%nat).
Proof.
  cbn zeta.
  assert (Hreach : reachable default_settings
                     (exec (add_message default_settings "u" "hi" "hello")
                        (initial_world 0))).
  { apply reach_add_message, reach_initial. }
  split; [exact Hreach|].
  destruct (stored_entries_come_in_pairs default_settings _ "u" Hreach)
    as (Heven & Hsummary & _).
  split; [exact Heven | exact Hsummary].
Defined.

(** [process_message] keeps the world among the reachable ones, so the
    pairing holds along any run of the service. *)
Lemma process_message_reachable settings self user message w :
  reachable settings w ->
  reachable settings (exec (process_message settings self user message) w).
Proof.
  intros Hreach. destruct (is_initialized self) eqn:Hinit.
  - destruct (process_message_run settings self user message w Hinit)
      as (docs & text & conf & srcs & cs & prompt & Hrun & _ & Hcs & _).
    unfold exec at 1. rewrite Hrun. simpl snd.
    apply reach_cleanup, reach_add_message.
    destruct Hcs as [-> | ->].
    + by apply (reach_call settings w (GeneratorCall prompt)).
    + change [RetrieverCall message 5; GeneratorCall prompt]
        with ([RetrieverCall message 5] ++ [GeneratorCall prompt]).
      rewrite <- log_call_log_calls.
      apply reach_call. by apply (reach_call settings w (RetrieverCall message 5)).
  - unfold exec. by rewrite (process_message_uninitialized settings self user message w Hinit).
Qed.

(** ** Confidence score *)

Lemma confidence_body_pure documents question w :
  (∃ v, confidence_body documents question w = (Ok v, w))
  ∨ confidence_body documents question w = (Raise, w).
Proof.
  unfold confidence_body. destruct documents as [|d rest]; [left; by eexists|].
  unfold bind, lift_result, ret.
  destruct (of_int (Z.of_nat (length (d :: rest)))); [|by right].
  destruct (of_int _); [left; by eexists | by right].
Qed.

(** Below [2^63], the bound on the length of a Python list or string, the
    score is the formula itself. *)
Lemma reference_score_formula documents question :
  documents ≠ [] ->
  Z.of_nat (length documents) < 2 ^ 63 ->
  Z.of_nat (Reference.overlap documents question) < 2 ^ 63 ->
  ∃ n k,
    of_int (Z.of_nat (length documents)) = Ok n
    ∧ of_int (Z.of_nat (Reference.overlap documents question)) = Ok k
    ∧ Reference.score documents question
      = Reference.fmin f_0_95
          (add (Reference.fmin f_0_8 (add f_0_3 (mul f_0_1 n)))
               (Reference.fmin f_0_2 (mul f_0_02 k))).
Proof.
  intros Hne Hlen Hover.
  destruct (of_int_in_range (Z.of_nat (length documents))) as [n Hn]; [lia|].
  destruct (of_int_in_range (Z.of_nat (Reference.overlap documents question)))
    as [k Hk]; [lia|].
  exists n, k. split; [exact Hn|]. split; [exact Hk|].
  unfold Reference.score. destruct documents as [|d rest]; [done|].
  by rewrite Hn, Hk.
Qed.

(** C4. [_calculate_confidence] returns a value and leaves the world as
    it was; the value is the reference score of the specification, which
    depends on the documents and the question only; it is [0.0] for no
    documents and, for counts below [2^63], [min(0.95, base + boost)] with
    [base = min(0.8, 0.3 + 0.1 * |chunks|)] and
    [boost = min(0.2, 0.02 * overlap)]; it is the value of the body of the
    [try] when the body returns and [0.5] when the body raises; and it lies
    between [0.0] and [0.95]. *)
Theorem calculate_confidence_is_the_reference_score documents question w :
  ∃ r,
    _calculate_confidence documents question w = (Ok r, w)
    ∧ r = Reference.score documents question
    ∧ eval (_calculate_confidence [] question) w = Ok f_0_0
    ∧ (documents ≠ [] ->
       Z.of_nat (length documents) < 2 ^ 63 ->
       Z.of_nat (Reference.overlap documents question) < 2 ^ 63 ->
       ∃ n k,
         of_int (Z.of_nat (length documents)) = Ok n
         ∧ of_int (Z.of_nat (Reference.overlap documents question)) = Ok k
         ∧ r = Reference.fmin f_0_95
                 (add (Reference.fmin f_0_8 (add f_0_3 (mul f_0_1 n)))
                      (Reference.fmin f_0_2 (mul f_0_02 k))))
    ∧ ((∃ v, confidence_body documents question w = (Ok v, w) ∧ r = v)
       ∨ (confidence_body documents question w = (Raise, w) ∧ r = f_0_5))
    ∧ leb f_0_0 r = true
    ∧ leb r f_0_95 = true.
Proof.
  exists (Reference.score documents question).
  pose proof (calculate_confidence_run documents question w) as Hrun.
  split; [exact Hrun|]. split; [reflexivity|]. split; [reflexivity|].
  split; [apply reference_score_formula|].
  split; [|apply reference_score_bounds].
  unfold _calculate_confidence, try_except in Hrun.
  destruct (confidence_body_pure documents question w) as [[v Hv]|Hraise].
  - left. exists v. split; [exact Hv|]. rewrite Hv in Hrun. congruence.
  - right. split; [exact Hraise|]. rewrite Hraise in Hrun.
    unfold ret in Hrun. congruence.
Qed.

(** Scenario C of the specification at the theorem: two chunks that
    mention the refund and the query [refund policy] give [base = 0.5],
    an overlap of one token, and the score [0.52]. *)
Lemma calculate_confidence_is_the_reference_score_witness :
  let documents := [refund_document; policy_document] in
  documents ≠ []
  ∧ Z.of_nat (length documents) < 2 ^ 63
  ∧ Z.of_nat (Reference.overlap documents "refund policy") < 2 ^ 63
  ∧ ∃ r,
      _calculate_confidence documents "refund policy" (initial_world 0)
      = (Ok r, initial_world 0)
      ∧ r = Prim2SF 0x1.0a3d70a3d70a4p-1
      ∧ leb f_0_0 r = true
      ∧ leb r f_0_95 = true.
Proof.
  cbn zeta. split; [discriminate|]. split; [reflexivity|]. split; [reflexivity|].
  destruct (calculate_confidence_is_the_reference_score
              [refund_document; policy_document] "refund policy" (initial_world 0))
    as (r & Hrun & Hr & _ & _ & _ & Hlow & Hhigh).
  exists r. split; [exact Hrun|]. split; [|split; assumption].
  rewrite Hr. vm_compute. reflexivity.
Defined.

(** Scenario C of the specification: two chunks that mention the refund,
    and the query [refund policy], score [0.52]. *)
Example confidence_refund_policy :
  eval (_calculate_confidence [refund_document; policy_document] "refund policy")
       (initial_world 0)
  = Ok (Prim2SF 0x1.0a3d70a3d70a4p-1).
Proof. vm_compute. reflexivity. Qed.

(** ** Orchestrator *)

Lemma calls_after_recording settings user message text cs w :
  calls (exec (cleanup_expired_conversations settings)
           (exec (add_message settings user message text) (log_calls cs w)))
  = calls w ++ cs.
Proof.
  unfold exec. by rewrite add_message_run, cleanup_expired_conversations_run.
Qed.

(** C7. A service that is not initialized answers with the fixed
    unavailable response, confidence [0.0], and returns the world it was
    given: no session is created or changed, nothing is appended, and no
    call to the retriever or to the generator is logged. *)
Theorem process_message_uninitialized_changes_nothing settings self user message w :
  is_initialized self = false ->
  process_message settings self user message w
  = (Ok {| response := unavailable_text; confidence := Some f_0_0; sources := None |}, w)
  ∧ memory_service (exec (process_message settings self user message) w)
    = memory_service w
  ∧ calls (exec (process_message settings self user message) w) = calls w.
Proof.
  intros Hinit. unfold exec.
  by rewrite (process_message_uninitialized settings self user message w Hinit).
Qed.

Lemma process_message_uninitialized_changes_nothing_witness :
  let w := exec (add_message default_settings "u" "hi" "hello") (initial_world 0) in
  is_initialized uninitialized_service = false
  ∧ process_message default_settings uninitialized_service "u" "refund policy" w
    = (Ok {| response := unavailable_text; confidence := Some f_0_0; sources := None |}, w).
Proof.
  split; [reflexivity|].
  apply (process_message_uninitialized_changes_nothing default_settings
           uninitialized_service "u" "refund policy"). reflexivity.
Defined.

(** C6. On an initialized service, when [search_documents] returns no
    document, [process_message] returns a response with confidence [0.3]
    and the empty list of sources, and the last external call it made is
    the generator call with the fallback prompt. *)
Theorem process_message_fallback_confidence settings self user message w :
  is_initialized self = true ->
  eval (search_documents (pdf_processor self) message 5) w = Ok [] ->
  ∃ resp,
    eval (process_message settings self user message) w = Ok resp
    ∧ confidence resp = Some f_0_3
    ∧ sources resp = Some []
    ∧ last (calls (exec (process_message settings self user message) w))
      = Some (GeneratorCall (fallback_prompt_format message)).
Proof.
  intros Hinit Hsearch.
  destruct (process_message_run settings self user message w Hinit)
    as (docs & text & conf & srcs & cs & prompt & Hrun & Hdocs & Hcs & Hempty & _).
  rewrite Hsearch in Hdocs. injection Hdocs as <-.
  destruct (Hempty eq_refl) as (-> & -> & -> & _).
  eexists. unfold eval, exec. rewrite Hrun. simpl fst. simpl snd.
  repeat split. rewrite calls_after_recording.
  destruct Hcs as [-> | ->]; by rewrite last_app.
Qed.

Lemma process_message_fallback_confidence_witness :
  is_initialized (service [] answering_model) = true
  ∧ eval (search_documents (pdf_processor (service [] answering_model)) "asdkjasd" 5)
         (initial_world 0) = Ok []
  ∧ ∃ resp,
      eval (process_message default_settings (service [] answering_model) "u" "asdkjasd")
           (initial_world 0) = Ok resp
      ∧ confidence resp = Some f_0_3
      ∧ sources resp = Some [].
Proof.
  split; [reflexivity|]. split; [reflexivity|].
  destruct (process_message_fallback_confidence default_settings
              (service [] answering_model) "u" "asdkjasd" (initial_world 0)
              eq_refl eq_refl) as (resp & H1 & H2 & H3 & _).
  exists resp. repeat split; assumption.
Defined.

(** C2. On an initialized service, whatever the retriever and the
    generator do, [process_message] returns a response, and the world it
    leaves is the one in which the external calls were logged, then
    [add_message] stored the message with the text of that very response
    and returned [True], then [cleanup_expired_conversations] ran. After
    the append the history of the user ends with the two new entries, up
    to the trimming. *)
Theorem process_message_records_then_sweeps settings self user message w :
  is_initialized self = true ->
  ∃ resp cs,
    let recorded :=
      exec (add_message settings user message (response resp)) (log_calls cs w) in
    process_message settings self user message w
    = (Ok resp, exec (cleanup_expired_conversations settings) recorded)
    ∧ eval (add_message settings user message (response resp)) (log_calls cs w)
      = Ok true
    ∧ history_of (memory_service recorded) user
      = trimmed settings
          (base_history settings (clock w) (memory_service w) user
           ++ [human_entry message (clock w); ai_entry (response resp) (clock w)]).
Proof.
  intros Hinit.
  destruct (process_message_run settings self user message w Hinit)
    as (docs & text & conf & srcs & cs & prompt & Hrun & _).
  exists {| response := text; confidence := Some conf; sources := Some srcs |}, cs.
  cbn zeta. cbn [response]. split; [exact Hrun|]. split.
  - unfold eval. by rewrite add_message_run.
  - rewrite memory_after_add_message. apply appended_history.
Qed.

Lemma process_message_records_then_sweeps_witness :
  is_initialized (service [refund_document] failing_model) = true
  ∧ ∃ resp cs,
      process_message default_settings (service [refund_document] failing_model)
        "u" "refund policy" (initial_world 0)
      = (Ok resp,
         exec (cleanup_expired_conversations default_settings)
           (exec (add_message default_settings "u" "refund policy" (response resp))
              (log_calls cs (initial_world 0)))).
Proof.
  split; [reflexivity|].
  destruct (process_message_records_then_sweeps default_settings
              (service [refund_document] failing_model) "u" "refund policy"
              (initial_world 0) eq_refl) as (resp & cs & H & _).
  exists resp, cs. exact H.
Defined.

(** The three paths on concrete runs: the response text returned is the
    text stored. *)
Example recorded_on_every_path :
  let stored self :=
    history_of
      (memory_service
         (exec (process_message default_settings self "u" "refund policy")
            (initial_world 0))) "u" in
  stored (service [refund_document] answering_model)
  = [human_entry "refund policy" 0;
     ai_entry "You can ask for a refund within 30 days." 0]
  ∧ stored (service [] answering_model)
    = [human_entry "refund policy" 0;
       ai_entry "You can ask for a refund within 30 days." 0]
  ∧ stored (service [refund_document] failing_model)
    = [human_entry "refund policy" 0; ai_entry generation_error_text 0]
  ∧ stored (service [] failing_model)
    = [human_entry "refund policy" 0; ai_entry basic_fallback_text 0].
Proof. vm_compute. repeat split. Qed.

(** C3 as stated fails: with no document retrieved and a generator that
    raises, the response has confidence [0.3], not [0.0]. *)
Lemma generator_failure_on_fallback_path_scores_0_3 :
  ¬ (∀ settings self user message w,
       is_initialized self = true ->
       (∀ prompt, chat_model self prompt = Raise) ->
       ∃ resp,
         eval (process_message settings self user message) w = Ok resp
         ∧ confidence resp = Some f_0_0).
Proof.
  intros H.
  destruct (H default_settings (service [] failing_model) "u" "asdkjasd"
              (initial_world 0) eq_refl (fun _ => eq_refl)) as (resp & Hrun & Hconf).
  vm_compute in Hrun. injection Hrun as <-. discriminate Hconf.
Qed.

(** C3, amended. On an initialized service whose generator raises on
    every prompt, [process_message] still returns a response: when
    documents were retrieved it is the generation apology with confidence
    [0.0] and no sources; when none were retrieved it is the basic fallback
    text with confidence [0.3] and no sources. *)
Theorem process_message_survives_generator_failure settings self user message w :
  is_initialized self = true ->
  (∀ prompt, chat_model self prompt = Raise) ->
  ∃ resp docs,
    eval (process_message settings self user message) w = Ok resp
    ∧ eval (search_documents (pdf_processor self) message 5) w = Ok docs
    ∧ sources resp = Some []
    ∧ (docs ≠ [] ->
       response resp = generation_error_text ∧ confidence resp = Some f_0_0)
    ∧ (docs = [] ->
       response resp = basic_fallback_text ∧ confidence resp = Some f_0_3).
Proof.
  intros Hinit Hfail.
  destruct (process_message_run settings self user message w Hinit)
    as (docs & text & conf & srcs & cs & prompt & Hrun & Hdocs & _ & Hempty & Hfull).
  exists {| response := text; confidence := Some conf; sources := Some srcs |}, docs.
  unfold eval. rewrite Hrun. cbn [fst response confidence sources].
  split; [reflexivity|]. split; [exact Hdocs|].
  destruct docs as [|d rest].
  - destruct (Hempty eq_refl) as (_ & -> & -> & Htext).
    rewrite (Htext (Hfail _)). repeat split; done.
  - destruct (Hfull ltac:(discriminate)) as (_ & Hraise & _).
    destruct (Hraise (Hfail _)) as (-> & -> & ->). repeat split; done.
Qed.

Lemma process_message_survives_generator_failure_witness :
  is_initialized (service [refund_document] failing_model) = true
  ∧ (∀ prompt, chat_model (service [refund_document] failing_model) prompt = Raise)
  ∧ ∃ resp,
      eval (process_message default_settings (service [refund_document] failing_model)
              "u" "refund policy") (initial_world 0) = Ok resp
      ∧ response resp = generation_error_text
      ∧ confidence resp = Some f_0_0.
Proof.
  split; [reflexivity|]. split; [intros prompt; reflexivity|].
  destruct (process_message_survives_generator_failure default_settings
              (service [refund_document] failing_model) "u" "refund policy"
              (initial_world 0) eq_refl (fun _ => eq_refl))
    as (resp & docs & Hrun & Hdocs & _ & Hfull & _).
  exists resp. split; [exact Hrun|]. apply Hfull.
  vm_compute in Hdocs. injection Hdocs as <-. discriminate.
Defined.

(** [process_message] never raises, initialized or not. *)
Lemma process_message_total settings self user message w :
  ∃ resp w', process_message settings self user message w = (Ok resp, w').
Proof.
  destruct (is_initialized self) eqn:Hinit.
  - destruct (process_message_run settings self user message w Hinit)
      as (docs & text & conf & srcs & cs & prompt & Hrun & _).
    eexists _, _. exact Hrun.
  - eexists _, _. by apply process_message_uninitialized.
Qed.

(** * Further properties of the code *)

(** * Further properties of the store *)

Section StoreExtras.
Variable settings : Settings.

Lemma memory_after_cleanup w :
  memory_service (exec (cleanup_expired_conversations settings) w)
  = swept settings (clock w) (memory_service w).
Proof. unfold exec. by rewrite cleanup_expired_conversations_run. Qed.

Lemma swept_active now m user :
  active_at settings now (swept settings now m) user = active_at settings now m user.
Proof.
  unfold active_at at 1. rewrite swept_states.
  destruct (active_at settings now m user) eqn:Ha; [|reflexivity].
  unfold active_at in Ha. by destruct (conversation_states m !! user).
Qed.

Lemma swept_idempotent now m :
  swept settings now (swept settings now m) = swept settings now m.
Proof.
  assert (Hs : ∀ user,
    conversation_states (swept settings now (swept settings now m)) !! user
    = conversation_states (swept settings now m) !! user).
  { intros user. rewrite (swept_states settings now (swept settings now m)).
    rewrite swept_active, swept_states.
    by destruct (active_at settings now m user). }
  assert (Hc : ∀ user,
    conversations (swept settings now (swept settings now m)) !! user
    = conversations (swept settings now m) !! user).
  { intros user. rewrite (swept_conversations settings now (swept settings now m)).
    rewrite swept_active. unfold has_key. rewrite swept_states, swept_conversations.
    destruct (active_at settings now m user) eqn:Ha; simpl.
    - by rewrite andb_false_r.
    - reflexivity. }
  destruct (swept settings now (swept settings now m)) as [c2 s2] eqn:E2.
  destruct (swept settings now m) as [c1 s1] eqn:E1. simpl in *.
  f_equal; by apply map_eq.
Qed.

(** [cleanup_expired_conversations] deletes, from both dictionaries,
    exactly the sessions that are not active at the time of the call, and
    leaves the active ones, the clock and the call log as they were; what
    it leaves is active, and a second sweep at the same time changes
    nothing. *)
Theorem cleanup_removes_exactly_the_expired w user :
  let w' := exec (cleanup_expired_conversations settings) w in
  let active := active_at settings (clock w) (memory_service w) user in
  eval (cleanup_expired_conversations settings) w = Ok tt
  ∧ conversation_states (memory_service w') !! user
    = (if active then conversation_states (memory_service w) !! user else None)
  ∧ conversations (memory_service w') !! user
    = (if has_key user (conversation_states (memory_service w)) && negb active
       then None else conversations (memory_service w) !! user)
  ∧ (is_Some (conversation_states (memory_service w') !! user) ->
     eval (_is_conversation_active settings user) w' = Ok true)
  ∧ clock w' = clock w
  ∧ calls w' = calls w
  ∧ exec (cleanup_expired_conversations settings) w' = w'.
Proof.
  cbn zeta. rewrite memory_after_cleanup.
  split; [unfold eval; by rewrite cleanup_expired_conversations_run|].
  split; [apply swept_states|]. split; [apply swept_conversations|].
  split.
  - intros Hsome. unfold eval. rewrite is_conversation_active_run.
    unfold exec at 1 2. rewrite cleanup_expired_conversations_run.
    cbn [fst snd memory_service set_memory clock]. rewrite swept_active.
    rewrite swept_states in Hsome.
    destruct (active_at settings (clock w) (memory_service w) user);
      [reflexivity | by destruct Hsome].
  - unfold exec. rewrite !cleanup_expired_conversations_run.
    cbn [snd memory_service set_memory clock calls].
    split; [reflexivity|]. split; [reflexivity|].
    unfold set_memory. cbn [memory_service clock calls].
    by rewrite swept_idempotent.
Qed.

Lemma ensure_session_idempotent now user m :
  ensure_session settings now user (ensure_session settings now user m)
  = ensure_session settings now user m.
Proof.
  unfold ensure_session at 1.
  destruct (has_key user (conversations (ensure_session settings now user m))
            && active_at settings now (ensure_session settings now user m) user)
    eqn:E2; [reflexivity|].
  unfold ensure_session in *.
  destruct (has_key user (conversations m) && active_at settings now m user) eqn:E.
  - congruence.
  - cbn [conversations conversation_states]. by rewrite !insert_insert_eq.
Qed.

Lemma memory_after_get_or_create user w :
  memory_service (exec (get_or_create_memory settings user) w)
  = ensure_session settings (clock w) user (memory_service w).
Proof. unfold exec. by rewrite get_or_create_memory_run. Qed.

(** [get_or_create_memory] always hands back the stored buffer of the
    user; afterwards the user is in both dictionaries, every other user is
    as before, and calling it again at the same time changes nothing. *)
Theorem get_or_create_memory_is_idempotent user w :
  let w' := exec (get_or_create_memory settings user) w in
  eval (get_or_create_memory settings user) w = Ok (Stored user)
  ∧ has_key user (conversations (memory_service w')) = true
  ∧ has_key user (conversation_states (memory_service w')) = true
  ∧ (∀ other, other ≠ user ->
       conversation_states (memory_service w') !! other
       = conversation_states (memory_service w) !! other
       ∧ conversations (memory_service w') !! other
         = conversations (memory_service w) !! other)
  ∧ exec (get_or_create_memory settings user) w' = w'.
Proof.
  cbn zeta. rewrite memory_after_get_or_create.
  split; [unfold eval; by rewrite get_or_create_memory_run|].
  split.
  { unfold ensure_session.
    destruct (has_key user (conversations (memory_service w))
              && active_at settings (clock w) (memory_service w) user) eqn:E.
    - by apply andb_true_iff in E as [E _].
    - cbn [conversations]. unfold has_key. by rewrite lookup_insert_eq. }
  split; [apply has_key_ensure_session|].
  split.
  { intros other Hne. unfold ensure_session.
    destruct (has_key user (conversations (memory_service w))
              && active_at settings (clock w) (memory_service w) user);
      [done|]. cbn [conversations conversation_states].
    by rewrite !lookup_insert_ne. }
  unfold exec. rewrite !get_or_create_memory_run.
  cbn [snd memory_service set_memory clock]. unfold set_memory.
  cbn [memory_service clock calls]. by rewrite ensure_session_idempotent.
Qed.
End StoreExtras.

Section StoreExtras2.
Variable settings : Settings.

Lemma has_key_alter {V} (f : V -> V) (key other : string) (d : gmap string V) :
  has_key other (alter f key d) = has_key other d.
Proof.
  unfold has_key. destruct (decide (key = other)) as [->|Hne].
  - rewrite lookup_alter_eq. by destruct (d !! other).
  - by rewrite lookup_alter_ne.
Qed.

Lemma same_keys_ensure_session now user m :
  same_keys m -> same_keys (ensure_session settings now user m).
Proof.
  intros Hk u. unfold ensure_session.
  destruct (has_key user (conversations m) && active_at settings now m user);
    [apply Hk|].
  cbn [conversations conversation_states]. unfold has_key.
  destruct (decide (user = u)) as [->|Hne].
  - by rewrite !lookup_insert_eq.
  - rewrite !lookup_insert_ne by done. apply Hk.
Qed.

Lemma same_keys_swept now m : same_keys m -> same_keys (swept settings now m).
Proof.
  intros Hk u. specialize (Hk u). unfold has_key in *.
  rewrite swept_states, swept_conversations. unfold has_key.
  destruct (active_at settings now m u) eqn:Ha; simpl.
  - by rewrite andb_false_r.
  - rewrite andb_true_r.
    destruct (conversation_states m !! u); [reflexivity|].
    by destruct (conversations m !! u).
Qed.

(** In every world the methods of the store can reach, the buffer
    dictionary and the state dictionary hold the same users: a session
    never has a state without a buffer or a buffer without a state. *)
Theorem reachable_same_keys w :
  reachable settings w -> same_keys (memory_service w).
Proof.
  induction 1 as [now|w now _ IH|w c _ IH|w user _ IH|w user h a _ IH
                 |w user _ IH|w _ IH].
  - intros u. reflexivity.
  - exact IH.
  - exact IH.
  - rewrite memory_after_get_or_create. by apply same_keys_ensure_session.
  - rewrite memory_after_add_message. intros u. unfold appended.
    cbn [conversations conversation_states]. rewrite !has_key_alter.
    by apply same_keys_ensure_session.
  - unfold exec. rewrite clear_conversation_run. intros u.
    cbn [snd memory_service set_memory]. unfold cleared.
    cbn [conversations conversation_states]. rewrite !has_key_alter. apply IH.
  - rewrite memory_after_cleanup. by apply same_keys_swept.
Qed.

(** [add_message] for one user leaves the state and the buffer of every
    other user, the clock and the call log as they were, and sets the
    user's [last_activity] to the time of the call. *)
Theorem add_message_touches_one_user user human_message ai_response w :
  let w' := exec (add_message settings user human_message ai_response) w in
  (∀ other, other ≠ user ->
     conversation_states (memory_service w') !! other
     = conversation_states (memory_service w) !! other
     ∧ conversations (memory_service w') !! other
       = conversations (memory_service w) !! other)
  ∧ last_activity <$> conversation_states (memory_service w') !! user
    = Some (clock w)
  ∧ clock w' = clock w
  ∧ calls w' = calls w.
Proof.
  cbn zeta. rewrite memory_after_add_message.
  split.
  { intros other Hne. unfold appended. cbn [conversations conversation_states].
    rewrite !lookup_alter_ne by done. unfold ensure_session.
    destruct (has_key user (conversations (memory_service w))
              && active_at settings (clock w) (memory_service w) user); [done|].
    cbn [conversations conversation_states]. by rewrite !lookup_insert_ne. }
  split; [apply appended_last_activity|].
  unfold exec. by rewrite add_message_run.
Qed.

(** The buffer after one append: the buffer of the ensured session
    followed by the two messages. *)
Lemma appended_buffer now user human_message ai_response m :
  buffer_of (appended settings now user human_message ai_response m) user
  = buffer_of (ensure_session settings now user m) user
    ++ [HumanMessage human_message; AIMessage ai_response].
Proof.
  unfold appended, buffer_of. cbn [conversations].
  rewrite lookup_alter_eq.
  assert (Hk : has_key user (conversations (ensure_session settings now user m)) = true).
  { unfold ensure_session.
    destruct (has_key user (conversations m) && active_at settings now m user) eqn:E.
    - by apply andb_true_iff in E as [E _].
    - cbn [conversations]. unfold has_key. by rewrite lookup_insert_eq. }
  unfold has_key in Hk.
  destruct (conversations (ensure_session settings now user m) !! user) as [b|];
    [|discriminate].
  simpl. by rewrite <- app_assoc.
Qed.

Lemma buffer_entries_app xs ys :
  buffer_entries (xs ++ ys) = buffer_entries xs ++ buffer_entries ys.
Proof. unfold buffer_entries. apply flat_map_app. Qed.

Lemma run_appends_buffer user xs : ∀ w st ys,
  has_key user (conversations (memory_service w)) = true ->
  conversation_states (memory_service w) !! user = Some st ->
  buffer_of (memory_service w) user = buffer_entries ys ->
  within_timeout settings (last_activity st) xs ->
  buffer_of (memory_service (run_appends settings user xs w)) user
  = buffer_entries (ys ++ xs).
Proof.
  induction xs as [|x xs IH]; intros w st ys Hbuf Hst Hb Hin.
  - simpl. by rewrite app_nil_r.
  - destruct Hin as [Hlt Hin]. simpl.
    set (w1 := exec (add_message settings user x.1.2 x.2) (set_clock x.1.1 w)).
    assert (Hm1 : memory_service w1
                  = appended settings x.1.1 user x.1.2 x.2 (memory_service w)).
    { unfold w1. by rewrite memory_after_add_message. }
    assert (Hkeep : ensure_session settings x.1.1 user (memory_service w)
                    = memory_service w).
    { unfold ensure_session. rewrite Hbuf. unfold active_at. rewrite Hst.
      by rewrite (proj2 (Z.ltb_lt _ _) Hlt). }
    pose proof (appended_last_activity settings x.1.1 user x.1.2 x.2 (memory_service w))
      as Hl.
    rewrite <- Hm1 in Hl.
    destruct (conversation_states (memory_service w1) !! user) as [st1|] eqn:Hst1;
      [|discriminate].
    simpl in Hl. injection Hl as Hl. rewrite <- Hl in Hin.
    rewrite (IH w1 st1 (ys ++ [x])); [by rewrite <- app_assoc| |exact Hst1| |exact Hin].
    + rewrite Hm1. apply appended_has_buffer.
    + rewrite Hm1, appended_buffer, Hkeep, Hb.
      change [HumanMessage x.1.2; AIMessage x.2] with (buffer_entries [x]).
      by rewrite <- buffer_entries_app.
Qed.

(** The buffer is never trimmed. For any cap, appends made within the
    timeout of one another, for a user who had no session, leave all of
    their messages in the buffer, while the history is cut to the cap:
    the summary's [memory_buffer_length] counts two per call. *)
Theorem buffer_keeps_every_message user xs w :
  conversation_states (memory_service w) !! user = None ->
  match xs with [] => True | x :: rest => within_timeout settings x.1.1 rest end ->
  xs ≠ [] ->
  let w' := run_appends settings user xs w in
  buffer_of (memory_service w') user = buffer_entries xs
  ∧ length (buffer_of (memory_service w') user) = (2 * length xs)%nat.
Proof.
  intros Hst Hin Hne w'.
  assert (Hbuf : buffer_of (memory_service w') user = buffer_entries xs).
  { subst w'. destruct xs as [|x rest]; [done|]. simpl.
    set (w1 := exec (add_message settings user x.1.2 x.2) (set_clock x.1.1 w)).
    assert (Hm1 : memory_service w1
                  = appended settings x.1.1 user x.1.2 x.2 (memory_service w)).
    { unfold w1. by rewrite memory_after_add_message. }
    pose proof (appended_last_activity settings x.1.1 user x.1.2 x.2 (memory_service w))
      as Hl.
    rewrite <- Hm1 in Hl.
    destruct (conversation_states (memory_service w1) !! user) as [st1|] eqn:Hst1;
      [|discriminate].
    simpl in Hl. injection Hl as Hl. rewrite <- Hl in Hin.
    rewrite (run_appends_buffer user rest w1 st1 [x]); [done| |exact Hst1| |exact Hin].
    - rewrite Hm1. apply appended_has_buffer.
    - rewrite Hm1, appended_buffer. unfold ensure_session, active_at.
      rewrite Hst, andb_false_r. unfold buffer_of. cbn [conversations].
      by rewrite lookup_insert_eq. }
  split; [exact Hbuf|]. rewrite Hbuf. unfold buffer_entries.
  clear. induction xs as [|x xs IH]; simpl; [done|]. rewrite IH. lia.
Qed.

(** An append to a session that is absent or has timed out starts over:
    the stored history is the two new entries, trimmed to the cap, and the
    buffer is the two new messages; what was stored before is gone. *)
Theorem add_message_restarts_expired_session user human_message ai_response w :
  eval (_is_conversation_active settings user) w = Ok false ->
  let w' := exec (add_message settings user human_message ai_response) w in
  history_of (memory_service w') user
  = trimmed settings [human_entry human_message (clock w);
                      ai_entry ai_response (clock w)]
  ∧ buffer_of (memory_service w') user
    = [HumanMessage human_message; AIMessage ai_response]
  ∧ (1 <= max_conversation_history settings ->
     history_of (memory_service w') user
     = [human_entry human_message (clock w); ai_entry ai_response (clock w)]).
Proof.
  intros Hexp w'. subst w'. unfold eval in Hexp.
  rewrite is_conversation_active_run in Hexp. injection Hexp as Hexp.
  rewrite memory_after_add_message, appended_history, appended_buffer.
  assert (Hbase : base_history settings (clock w) (memory_service w) user = []).
  { unfold base_history, ensure_session. rewrite Hexp, andb_false_r.
    cbn [conversation_states]. by rewrite lookup_insert_eq. }
  rewrite Hbase. split; [reflexivity|]. split.
  - unfold ensure_session. rewrite Hexp, andb_false_r. unfold buffer_of.
    cbn [conversations]. by rewrite lookup_insert_eq.
  - intros HM. rewrite trimmed_last_n by done. unfold last_n. simpl.
    by replace (2 - _)%nat with 0%nat by lia.
Qed.

End StoreExtras2.

Lemma reachable_same_keys_witness :
  let w := exec (cleanup_expired_conversations default_settings)
             (set_clock 1801000000
                (exec (add_message default_settings "u" "hi" "hello")
                   (initial_world 0))) in
  reachable default_settings w
  ∧ same_keys (memory_service w).
Proof.
  cbn zeta.
  assert (Hreach : reachable default_settings
            (exec (cleanup_expired_conversations default_settings)
               (set_clock 1801000000
                  (exec (add_message default_settings "u" "hi" "hello")
                     (initial_world 0))))).
  { apply reach_cleanup, reach_clock, reach_add_message, reach_initial. }
  split; [exact Hreach | exact (reachable_same_keys default_settings _ Hreach)].
Defined.

Lemma buffer_keeps_every_message_witness :
  let xs := [(0, "q1", "a1"); (1000000, "q2", "a2"); (2000000, "q3", "a3")] in
  let capped := {| max_conversation_history := 1; conversation_timeout := 1800 |} in
  let w' := run_appends capped "u" xs (initial_world 0) in
  conversation_states (memory_service (initial_world 0)) !! "u" = None
  ∧ within_timeout capped 0 [(1000000, "q2", "a2"); (2000000, "q3", "a3")]
  ∧ length (buffer_of (memory_service w') "u") = 6%nat
  ∧ length (history_of (memory_service w') "u") = 2%nat.
Proof.
  cbn zeta. split; [reflexivity|].
  assert (Hin : within_timeout
                  {| max_conversation_history := 1; conversation_timeout := 1800 |} 0
                  [(1000000, "q2", "a2"); (2000000, "q3", "a3")]).
  { simpl. unfold microseconds_per_second. lia. }
  split; [exact Hin|]. split; [|vm_compute; reflexivity].
  apply (buffer_keeps_every_message
           {| max_conversation_history := 1; conversation_timeout := 1800 |} "u"
           [(0, "q1", "a1"); (1000000, "q2", "a2"); (2000000, "q3", "a3")]
           (initial_world 0) eq_refl Hin ltac:(discriminate)).
Defined.

Lemma add_message_restarts_expired_session_witness :
  let w := set_clock 1800000000
             (exec (add_message default_settings "u" "hi" "hello") (initial_world 0)) in
  eval (_is_conversation_active default_settings "u") w = Ok false
  ∧ history_of (memory_service (exec (add_message default_settings "u" "again" "sure") w))
               "u"
    = [human_entry "again" 1800000000; ai_entry "sure" 1800000000].
Proof.
  cbn zeta. split; [reflexivity|].
  apply (add_message_restarts_expired_session default_settings "u" "again" "sure"
           (set_clock 1800000000
              (exec (add_message default_settings "u" "hi" "hello") (initial_world 0)))
           eq_refl).
  simpl. lia.
Defined.

Section StoreExtras3.
Variable settings : Settings.

Lemma count_active_run users w :
  count_active settings users w
  = (Ok (length (filter (fun user =>
                           active_at settings (clock w) (memory_service w) user = true)
                        users)), w).
Proof.
  induction users as [|user rest IH]; [reflexivity|].
  simpl. unfold bind at 1. rewrite is_conversation_active_run.
  unfold bind at 1. rewrite IH. unfold ret. rewrite filter_cons.
  destruct (active_at settings (clock w) (memory_service w) user) eqn:E.
  - rewrite decide_True by done. reflexivity.
  - rewrite decide_False by done. reflexivity.
Qed.

Lemma length_filter_all {A} (P : A -> Prop) `{∀ x, Decision (P x)} (l : list A) :
  (∀ x, x ∈ l -> P x) -> length (filter P l) = length l.
Proof.
  induction l as [|x l IH]; intros Hall; [reflexivity|].
  rewrite filter_cons, decide_True by (apply Hall; by left).
  simpl. f_equal. apply IH. intros y Hy. apply Hall. by right.
Qed.

(** [get_active_conversations_count] changes nothing and counts the
    stored sessions that are active at the time of the call: never more
    than there are sessions, and, right after a sweep, all of them. *)
Theorem active_count_after_cleanup w :
  let w' := exec (cleanup_expired_conversations settings) w in
  (∃ n, get_active_conversations_count settings w = (Ok n, w)
        ∧ (n <= size (conversation_states (memory_service w)))%nat)
  ∧ eval (get_active_conversations_count settings) w'
    = Ok (size (conversation_states (memory_service w'))).
Proof.
  cbn zeta. split.
  - eexists. split.
    + unfold get_active_conversations_count, try_except, bind, gets.
      rewrite count_active_run. reflexivity.
    + rewrite <- length_map_to_list, <- (length_fmap fst). apply length_filter.
  - unfold eval, get_active_conversations_count, try_except, bind, gets.
    rewrite count_active_run. cbn [fst]. f_equal.
    rewrite <- length_map_to_list, <- (length_fmap fst (map_to_list _)).
    apply length_filter_all. intros user Hin.
    apply list_elem_of_fmap in Hin as [[k st] [Hk Hin]].
    apply elem_of_map_to_list in Hin. cbn [fst] in Hk. subst user.
    unfold exec in *. rewrite cleanup_expired_conversations_run in *.
    cbn [snd memory_service set_memory clock] in *.
    rewrite swept_active. rewrite swept_states in Hin.
    by destruct (active_at settings (clock w) (memory_service w) k).
Qed.

(** [get_memory_context] on a session that is absent or has timed out
    returns the empty string and, as a side effect, leaves the user with
    a new empty session: the earlier history can no longer be read. *)
Theorem get_memory_context_restarts_expired_session user w :
  eval (_is_conversation_active settings user) w = Ok false ->
  let w' := exec (get_memory_context settings user) w in
  eval (get_memory_context settings user) w = Ok EmptyContext
  ∧ conversation_states (memory_service w') !! user
    = Some (fresh_state user (clock w))
  ∧ eval (get_conversation_history user) w' = Ok []
  ∧ (∀ other, other ≠ user ->
       conversation_states (memory_service w') !! other
       = conversation_states (memory_service w) !! other).
Proof.
  intros Hexp. unfold eval in Hexp.
  rewrite is_conversation_active_run in Hexp. injection Hexp as Hexp.
  assert (Hrun : get_memory_context settings user w
                 = (Ok EmptyContext,
                    set_memory (ensure_session settings (clock w) user) w)).
  { unfold get_memory_context, try_except. unfold bind at 1.
    rewrite get_or_create_memory_run. unfold read_buffer, bind, gets.
    cbn [memory_service set_memory]. unfold ensure_session at 1.
    rewrite Hexp, andb_false_r. unfold buffer_of. cbn [conversations].
    by rewrite lookup_insert_eq. }
  cbn zeta. unfold eval, exec. rewrite Hrun. cbn [fst snd memory_service set_memory].
  assert (Hst : conversation_states
                  (ensure_session settings (clock w) user (memory_service w)) !! user
                = Some (fresh_state user (clock w))).
  { unfold ensure_session. rewrite Hexp, andb_false_r. cbn [conversation_states].
    by rewrite lookup_insert_eq. }
  split; [reflexivity|]. split; [exact Hst|]. split.
  - rewrite get_conversation_history_run. cbn [fst memory_service set_memory].
    unfold history_of. by rewrite Hst.
  - intros other Hne. unfold ensure_session. rewrite Hexp, andb_false_r.
    cbn [conversation_states]. by rewrite lookup_insert_ne.
Qed.

(** On an active session [get_memory_context] returns the buffer and
    changes nothing. *)
Lemma get_memory_context_active user w :
  has_key user (conversations (memory_service w)) = true ->
  eval (_is_conversation_active settings user) w = Ok true ->
  buffer_of (memory_service w) user ≠ [] ->
  get_memory_context settings user w
  = (Ok (BufferContext (buffer_of (memory_service w) user)), w).
Proof.
  intros Hbuf Hact Hne. unfold eval in Hact.
  rewrite is_conversation_active_run in Hact. injection Hact as Hact.
  assert (Hkeep : ensure_session settings (clock w) user (memory_service w)
                  = memory_service w).
  { unfold ensure_session. by rewrite Hbuf, Hact. }
  unfold get_memory_context, try_except. unfold bind at 1.
  rewrite get_or_create_memory_run. unfold read_buffer, bind, gets.
  cbn [memory_service set_memory]. rewrite Hkeep.
  destruct (buffer_of (memory_service w) user) eqn:E; [done|].
  unfold ret, set_memory. rewrite Hkeep. by destruct w.
Qed.
End StoreExtras3.

Lemma get_memory_context_restarts_expired_session_witness :
  let w := set_clock 1801000000
             (exec (add_message default_settings "u" "hi" "hello") (initial_world 0)) in
  eval (_is_conversation_active default_settings "u") w = Ok false
  ∧ eval (get_memory_context default_settings "u") w = Ok EmptyContext
  ∧ eval (get_conversation_history "u")
         (exec (get_memory_context default_settings "u") w) = Ok [].
Proof.
  cbn zeta. split; [reflexivity|].
  destruct (get_memory_context_restarts_expired_session default_settings "u"
              (set_clock 1801000000
                 (exec (add_message default_settings "u" "hi" "hello") (initial_world 0)))
              eq_refl) as (H1 & _ & H3 & _).
  split; [exact H1 | exact H3].
Defined.

(** The cap at work: with [max_conversation_history = 2], three appends
    one second apart leave the last two exchanges. *)
Lemma appends_keep_most_recent_witness :
  let xs := [(0, "q1", "a1"); (1000000, "q2", "a2"); (2000000, "q3", "a3")] in
  let capped := {| max_conversation_history := 2; conversation_timeout := 1800 |} in
  1 <= max_conversation_history capped
  ∧ conversation_states (memory_service (initial_world 0)) !! "u" = None
  ∧ within_timeout capped 0 [(1000000, "q2", "a2"); (2000000, "q3", "a3")]
  ∧ history_of (memory_service (run_appends capped "u" xs (initial_world 0))) "u"
    = entries [(1000000, "q2", "a2"); (2000000, "q3", "a3")].
Proof.
  cbn zeta. split; [simpl; lia|]. split; [reflexivity|].
  assert (Hin : within_timeout
                  {| max_conversation_history := 2; conversation_timeout := 1800 |} 0
                  [(1000000, "q2", "a2"); (2000000, "q3", "a3")]).
  { simpl. unfold microseconds_per_second. lia. }
  split; [exact Hin|].
  exact (proj1 (appends_keep_most_recent
                  {| max_conversation_history := 2; conversation_timeout := 1800 |} "u"
                  [(0, "q1", "a1"); (1000000, "q2", "a2"); (2000000, "q3", "a3")]
                  (initial_world 0) ltac:(simpl; lia) eq_refl Hin)).
Defined.

(** * Further properties of the orchestrator *)

Lemma slice_from_last_n {A} (n : nat) (l : list A) :
  (0 < n)%nat -> slice_from (- Z.of_nat n) l = last_n n l.
Proof.
  intros Hn. unfold slice_from, last_n.
  destruct (- Z.of_nat n <? 0) eqn:E; [|apply Z.ltb_ge in E; lia].
  f_equal. lia.
Qed.

(** [_get_formatted_chat_history] changes nothing and returns the last
    five exchanges of the stored history, or all of them when there are
    fewer, oldest first; a trailing entry without its partner is left
    out. *)
Theorem formatted_history_is_the_last_five user w :
  ∃ window,
    _get_formatted_chat_history user w = (Ok window, w)
    ∧ window = last_n 5 (pair_up (history_of (memory_service w) user))
    ∧ length window
      = Nat.min (length (history_of (memory_service w) user) / 2) 5.
Proof.
  eexists. split; [apply get_formatted_chat_history_run|].
  change (-5) with (- Z.of_nat 5). rewrite slice_from_last_n by lia.
  split; [reflexivity|]. rewrite length_last_n. f_equal.
  generalize (history_of (memory_service w) user). clear.
  fix IH 1. intros [|h [|a rest]]; [reflexivity|reflexivity|].
  cbn [pair_up length]. rewrite (IH rest).
  change (S (S (length rest))) with (1 * 2 + length rest)%nat.
  by rewrite Nat.div_add_l by lia.
Qed.


Section OrchestratorExtras.
Variable settings : Settings.
Variable self : ChatbotService.

(** Whatever the service, the collaborators and the world, a response of
    [process_message] carries a confidence, and it lies between [0.0] and
    [0.95]. *)
Theorem process_message_confidence_range user message w :
  ∃ resp w' c,
    process_message settings self user message w = (Ok resp, w')
    ∧ confidence resp = Some c
    ∧ leb f_0_0 c = true
    ∧ leb c f_0_95 = true.
Proof.
  destruct (is_initialized self) eqn:Hinit.
  - destruct (process_message_run settings self user message w Hinit)
      as (docs & text & conf & srcs & cs & prompt & Hrun & _ & _ & Hempty & Hfull).
    eexists _, _, conf. split; [exact Hrun|]. split; [reflexivity|].
    destruct docs as [|d rest].
    + destruct (Hempty eq_refl) as (_ & -> & _). by split.
    + destruct (Hfull ltac:(discriminate)) as (_ & Hraise & Hok).
      destruct (chat_model self prompt) as [content|].
      * destruct (Hok content eq_refl) as (_ & -> & _).
        apply reference_score_bounds.
      * destruct (Hraise eq_refl) as (_ & -> & _). by split.
  - eexists _, _, f_0_0.
    split; [by apply process_message_uninitialized|]. by split.
Qed.

Lemma memory_after_process_message user message w :
  is_initialized self = true ->
  ∃ resp,
    eval (process_message settings self user message) w = Ok resp
    ∧ memory_service (exec (process_message settings self user message) w)
      = swept settings (clock w)
          (appended settings (clock w) user message (response resp)
             (memory_service w)).
Proof.
  intros Hinit.
  destruct (process_message_run settings self user message w Hinit)
    as (docs & text & conf & srcs & cs & prompt & Hrun & _).
  eexists. unfold eval, exec. rewrite Hrun. split; [reflexivity|].
  unfold exec. rewrite add_message_run, cleanup_expired_conversations_run.
  reflexivity.
Qed.

(** With a positive timeout the exchange [process_message] records
    survives its own sweep: after the call the history of the user is the
    one the append found, followed by the message and the text of the
    response, trimmed to the cap. *)
Theorem process_message_keeps_the_exchange user message w :
  is_initialized self = true ->
  0 < conversation_timeout settings ->
  ∃ resp,
    eval (process_message settings self user message) w = Ok resp
    ∧ history_of
        (memory_service (exec (process_message settings self user message) w)) user
      = trimmed settings
          (base_history settings (clock w) (memory_service w) user
           ++ [human_entry message (clock w); ai_entry (response resp) (clock w)]).
Proof.
  intros Hinit Hpos.
  destruct (memory_after_process_message user message w Hinit) as (resp & Hrun & Hmem).
  exists resp. split; [exact Hrun|]. rewrite Hmem.
  unfold history_of at 1. rewrite swept_states.
  pose proof (appended_last_activity settings (clock w) user message (response resp)
                (memory_service w)) as Hl.
  pose proof (appended_history settings (clock w) user message (response resp)
                (memory_service w)) as Hh.
  unfold history_of in Hh. unfold active_at.
  destruct (conversation_states
              (appended settings (clock w) user message (response resp)
                 (memory_service w)) !! user) as [st|]; [|discriminate].
  simpl in Hl. injection Hl as ->. rewrite Z.sub_diag.
  rewrite (proj2 (Z.ltb_lt 0 _)) by (unfold microseconds_per_second; lia).
  exact Hh.
Qed.

(** With a timeout of zero or less nothing is remembered: the sweep that
    ends [process_message] deletes the session the call has just written,
    so the user has neither state nor buffer afterwards. *)
Theorem process_message_forgets_without_timeout user message w :
  is_initialized self = true ->
  conversation_timeout settings <= 0 ->
  let w' := exec (process_message settings self user message) w in
  conversation_states (memory_service w') !! user = None
  ∧ conversations (memory_service w') !! user = None
  ∧ eval (get_conversation_history user) w' = Ok [].
Proof.
  intros Hinit Hneg.
  destruct (memory_after_process_message user message w Hinit) as (resp & _ & Hmem).
  cbn zeta.
  pose proof (appended_last_activity settings (clock w) user message (response resp)
                (memory_service w)) as Hl.
  assert (Hact : active_at settings (clock w)
                   (appended settings (clock w) user message (response resp)
                      (memory_service w)) user = false).
  { unfold active_at.
    destruct (conversation_states
                (appended settings (clock w) user message (response resp)
                   (memory_service w)) !! user) as [st|]; [|reflexivity].
    simpl in Hl. injection Hl as ->. rewrite Z.sub_diag.
    apply Z.ltb_ge. unfold microseconds_per_second. lia. }
  assert (Hst : conversation_states
                  (memory_service (exec (process_message settings self user message) w))
                  !! user = None).
  { rewrite Hmem, swept_states. by rewrite Hact. }
  split; [exact Hst|]. split.
  - rewrite Hmem, swept_conversations, Hact. unfold has_key.
    destruct (conversation_states
                (appended settings (clock w) user message (response resp)
                   (memory_service w)) !! user); [reflexivity|discriminate].
  - unfold eval. rewrite get_conversation_history_run. unfold history_of.
    by rewrite Hst.
Qed.

(** What [process_message] does to the other users: a session that is
    still active at the time of the call is untouched, one that has timed
    out is deleted by the sweep. *)
Theorem process_message_sweeps_other_users user message w other :
  is_initialized self = true ->
  other ≠ user ->
  conversation_states
    (memory_service (exec (process_message settings self user message) w)) !! other
  = if active_at settings (clock w) (memory_service w) other
    then conversation_states (memory_service w) !! other
    else None.
Proof.
  intros Hinit Hne.
  destruct (memory_after_process_message user message w Hinit) as (resp & _ & Hmem).
  rewrite Hmem, swept_states.
  assert (Hother : conversation_states
                     (appended settings (clock w) user message (response resp)
                        (memory_service w)) !! other
                   = conversation_states (memory_service w) !! other).
  { unfold appended. cbn [conversation_states]. rewrite lookup_alter_ne by done.
    unfold ensure_session.
    destruct (has_key user (conversations (memory_service w))
              && active_at settings (clock w) (memory_service w) user); [done|].
    cbn [conversation_states]. by rewrite lookup_insert_ne. }
  unfold active_at. by rewrite !Hother.
Qed.

Lemma generate_fallback_response_text message w :
  _generate_fallback_response self message w
  = (Ok (match chat_model self (fallback_prompt_format message) with
         | Ok content => PyStr.strip content
         | Raise => basic_fallback_text
         end),
     log_call (GeneratorCall (fallback_prompt_format message)) w).
Proof.
  unfold _generate_fallback_response, try_except, external_call, bind, modify,
    lift_result, ret.
  by destruct (chat_model self (fallback_prompt_format message)).
Qed.

Lemma process_message_fallback_response user message w :
  is_initialized self = true ->
  eval (search_documents (pdf_processor self) message 5) w = Ok [] ->
  eval (process_message settings self user message) w
  = Ok {| response := match chat_model self (fallback_prompt_format message) with
                      | Ok content => PyStr.strip content
                      | Raise => basic_fallback_text
                      end;
          confidence := Some f_0_3;
          sources := Some [] |}.
Proof.
  intros Hinit Hsearch. unfold eval in *. unfold process_message.
  rewrite Hinit. cbn [negb].
  unfold try_except at 1. unfold bind at 1.
  rewrite get_formatted_chat_history_run. unfold bind at 1.
  destruct (search_documents_run (pdf_processor self) message 5 w)
    as (docs & cs & Hrun & _).
  rewrite Hrun in Hsearch. cbn [fst] in Hsearch. injection Hsearch as ->.
  rewrite Hrun. unfold bind at 1. unfold bind at 1.
  rewrite generate_fallback_response_text. unfold ret at 1.
  unfold bind at 1. rewrite add_message_run.
  unfold bind at 1. rewrite cleanup_expired_conversations_run.
  reflexivity.
Qed.

(** A retriever that is missing or raises is not an error for the
    caller: [search_documents] returns no document, and [process_message]
    answers on the fallback path, with the stripped text of the generator
    when it answers and the basic fallback text when it raises, confidence
    [0.3] and no sources. *)
Theorem process_message_survives_retriever_failure user message w :
  is_initialized self = true ->
  match vectorstore (pdf_processor self) with
  | None => True
  | Some similarity_search => similarity_search message 5%nat = Raise
  end ->
  eval (search_documents (pdf_processor self) message 5) w = Ok []
  ∧ eval (process_message settings self user message) w
    = Ok {| response := match chat_model self (fallback_prompt_format message) with
                        | Ok content => PyStr.strip content
                        | Raise => basic_fallback_text
                        end;
            confidence := Some f_0_3;
            sources := Some [] |}.
Proof.
  intros Hinit Hfail.
  assert (Hsearch : eval (search_documents (pdf_processor self) message 5) w = Ok []).
  { unfold eval, search_documents, try_except, external_call, bind, modify,
      lift_result, ret.
    destruct (vectorstore (pdf_processor self)) as [s|]; [|reflexivity].
    by rewrite Hfail. }
  split; [exact Hsearch|]. by apply process_message_fallback_response.
Qed.
End OrchestratorExtras.

Lemma process_message_keeps_the_exchange_witness :
  let self := service [refund_document] answering_model in
  let w' := exec (process_message default_settings self "u" "refund policy")
              (initial_world 0) in
  is_initialized self = true
  ∧ 0 < conversation_timeout default_settings
  ∧ history_of (memory_service w') "u"
    = [human_entry "refund policy" 0;
       ai_entry "You can ask for a refund within 30 days." 0].
Proof.
  cbn zeta. split; [reflexivity|]. split; [reflexivity|].
  destruct (process_message_keeps_the_exchange default_settings
              (service [refund_document] answering_model) "u" "refund policy"
              (initial_world 0) eq_refl eq_refl) as (resp & Hrun & Hhist).
  rewrite Hhist. vm_compute in Hrun. injection Hrun as <-.
  vm_compute. reflexivity.
Defined.

Lemma process_message_forgets_without_timeout_witness :
  let settings := {| max_conversation_history := 20; conversation_timeout := 0 |} in
  let self := service [refund_document] answering_model in
  is_initialized self = true
  ∧ conversation_timeout settings <= 0
  ∧ eval (get_conversation_history "u")
         (exec (process_message settings self "u" "refund policy") (initial_world 0))
    = Ok [].
Proof.
  cbn zeta. split; [reflexivity|]. split; [simpl; lia|].
  apply (process_message_forgets_without_timeout
           {| max_conversation_history := 20; conversation_timeout := 0 |}
           (service [refund_document] answering_model) "u" "refund policy"
           (initial_world 0) eq_refl).
  simpl. lia.
Defined.

Lemma process_message_sweeps_other_users_witness :
  let self := service [refund_document] answering_model in
  let w := set_clock 1801000000
             (exec (add_message default_settings "old" "hi" "hello") (initial_world 0)) in
  is_initialized self = true
  ∧ "old" ≠ "u"
  ∧ conversation_states
      (memory_service (exec (process_message default_settings self "u" "refund policy") w))
      !! "old" = None.
Proof.
  cbn zeta. split; [reflexivity|]. split; [discriminate|].
  rewrite (process_message_sweeps_other_users default_settings
             (service [refund_document] answering_model) "u" "refund policy" _ "old"
             eq_refl ltac:(discriminate)).
  reflexivity.
Defined.

Lemma process_message_survives_retriever_failure_witness :
  let self := {| pdf_processor := {| vectorstore := Some (fun _ _ => Raise) |};
                 chat_model := answering_model;
                 is_initialized := true |} in
  is_initialized self = true
  ∧ (∀ query k, (fun _ _ : string => @Raise (list Document)) query k = Raise)
  ∧ eval (process_message default_settings self "u" "refund policy") (initial_world 0)
    = Ok {| response := "You can ask for a refund within 30 days.";
            confidence := Some f_0_3; sources := Some [] |}.
Proof.
  cbn zeta. split; [reflexivity|]. split; [reflexivity|].
  exact (proj2 (process_message_survives_retriever_failure default_settings
                  {| pdf_processor := {| vectorstore := Some (fun _ _ => Raise) |};
                     chat_model := answering_model;
                     is_initialized := true |} "u" "refund policy" (initial_world 0)
                  eq_refl eq_refl)).
Defined.

(** ** The score does not depend on order or on letter case *)

Lemma lower_char_idempotent c :
  PyStr.lower_char (PyStr.lower_char c) = PyStr.lower_char c.
Proof. destruct c as [[] [] [] [] [] [] [] []]; reflexivity. Qed.

Lemma lower_idempotent s : PyStr.lower (PyStr.lower s) = PyStr.lower s.
Proof.
  induction s as [|c s IH]; [reflexivity|].
  simpl. by rewrite lower_char_idempotent, IH.
Qed.

Lemma overlap_permutation documents documents' question :
  documents ≡ₚ documents' ->
  Reference.overlap documents question = Reference.overlap documents' question.
Proof.
  intros Hperm. unfold Reference.overlap. f_equal.
  apply list_filter_iff. intros t.
  assert (Hflat : flat_map (fun c => Reference.tokens (page_content c)) documents
                  ≡ₚ flat_map (fun c => Reference.tokens (page_content c)) documents').
  { by apply Permutation_flat_map. }
  by rewrite Hflat.
Qed.

(** The confidence is the same for any order of the documents, and for
    the question in any letter case. *)
Theorem confidence_ignores_order_and_case documents documents' question w :
  documents ≡ₚ documents' ->
  eval (_calculate_confidence documents' question) w
  = eval (_calculate_confidence documents question) w
  ∧ eval (_calculate_confidence documents (PyStr.lower question)) w
    = eval (_calculate_confidence documents question) w.
Proof.
  intros Hperm. unfold eval. rewrite !calculate_confidence_run. cbn [fst].
  split; f_equal.
  - unfold Reference.score.
    rewrite <- (overlap_permutation documents documents' question Hperm).
    rewrite <- (Permutation_length Hperm).
    destruct documents as [|d rest].
    + apply Permutation_nil_l in Hperm. by subst.
    + destruct documents' as [|d' rest']; [|reflexivity].
      by apply Permutation_nil_r in Hperm.
  - unfold Reference.score, Reference.overlap, Reference.tokens.
    by rewrite lower_idempotent.
Qed.

Lemma confidence_ignores_order_and_case_witness :
  [refund_document; policy_document] ≡ₚ [policy_document; refund_document]
  ∧ eval (_calculate_confidence [policy_document; refund_document] "Refund POLICY")
         (initial_world 0)
    = eval (_calculate_confidence [refund_document; policy_document] "Refund POLICY")
           (initial_world 0).
Proof.
  assert (Hperm : [refund_document; policy_document]
                  ≡ₚ [policy_document; refund_document]) by apply perm_swap.
  split; [exact Hperm|].
  exact (proj1 (confidence_ignores_order_and_case _ _ "Refund POLICY"
                  (initial_world 0) Hperm)).
Defined.

(** * The gateway *)

Lemma startswith_app p s : startswith (p ++ s)%string p = true.
Proof.
  induction p as [|c p IH]; [reflexivity|].
  cbn [startswith]. change (startswith (String c (p +:+ s)) (String c p) = true).
  cbn [startswith]. by rewrite Ascii.eqb_refl.
Qed.

Lemma str_drop_app p s : str_drop (String.length p) (p ++ s)%string = s.
Proof. induction p as [|c p IH]; [by destruct s|]. exact IH. Qed.

Lemma startswith_plus_not_prefix s :
  startswith s "+" = true -> startswith s whatsapp_prefix = false.
Proof.
  destruct s as [|c s]; [done|]. cbn [startswith whatsapp_prefix].
  destruct (Ascii.eqb_spec "+" c) as [<-|]; [|done]. reflexivity.
Qed.

(** [format_phone_number] gives the prefix [whatsapp:] followed by a
    number that starts with [+]; formatting again changes nothing, and
    [extract_phone_number] gives that number back. *)
Theorem format_phone_number_is_stable phone_number :
  let formatted := format_phone_number phone_number in
  startswith formatted whatsapp_prefix = true
  ∧ startswith (extract_phone_number formatted) "+" = true
  ∧ formatted = (whatsapp_prefix ++ extract_phone_number formatted)%string
  ∧ format_phone_number formatted = formatted
  ∧ format_phone_number (extract_phone_number formatted) = formatted.
Proof.
  cbn zeta.
  set (p1 := if startswith phone_number whatsapp_prefix
             then str_drop 9 phone_number else phone_number).
  set (p2 := if startswith p1 "+" then p1 else ("+" ++ p1)%string).
  assert (Hplus : startswith p2 "+" = true).
  { unfold p2. destruct (startswith p1 "+") eqn:E; [exact E|].
    apply (startswith_app "+"). }
  assert (Hshape : format_phone_number phone_number = (whatsapp_prefix ++ p2)%string)
    by reflexivity.
  rewrite Hshape. clearbody p2. clear Hshape p1.
  assert (Hext : extract_phone_number (whatsapp_prefix ++ p2)%string = p2).
  { unfold extract_phone_number. rewrite startswith_app.
    apply (str_drop_app whatsapp_prefix). }
  assert (Hnot : startswith p2 whatsapp_prefix = false)
    by by apply startswith_plus_not_prefix.
  assert (Hfmt : format_phone_number (whatsapp_prefix ++ p2)%string
                 = (whatsapp_prefix ++ p2)%string).
  { unfold format_phone_number. rewrite startswith_app.
    rewrite (str_drop_app whatsapp_prefix). by rewrite Hplus. }
  split; [apply startswith_app|]. rewrite Hext.
  split; [exact Hplus|]. split; [reflexivity|]. split; [exact Hfmt|].
  unfold format_phone_number. by rewrite Hnot, Hplus.
Qed.

Section Gateway.
Variable settings : Settings.
Variable chatbot : ChatbotService.
Variable tw : TwilioService.

Lemma send_message_run to_number message_body g :
  ∃ result,
    send_message tw to_number message_body g
    = (Ok result,
       match client tw with
       | None => g
       | Some _ =>
           log_attempt
             {| delivery_body := message_body;
                delivery_from := twilio_phone_number tw;
                delivery_to := if startswith to_number whatsapp_prefix
                               then to_number
                               else (whatsapp_prefix ++ to_number)%string |} g
       end).
Proof.
  unfold send_message.
  destruct (client tw) as [create|].
  - unfold bind at 1. unfold modify.
    destruct (create _); eexists; unfold bind, lift_core, datetime_now, gets, ret;
      cbn [fst snd core attempts log_attempt]; reflexivity.
  - eexists. unfold bind, lift_core, datetime_now, gets, ret. cbn [fst snd].
    by destruct g.
Qed.

Lemma process_whatsapp_message_run message g resp w' :
  process_message settings chatbot (from_number message) (body message) (core g)
  = (Ok resp, w') ->
  process_whatsapp_message settings chatbot tw message g
  = (Ok tt,
     {| core := w';
        attempts :=
          match client tw with
          | None => attempts g
          | Some _ =>
              attempts g
              ++ [{| delivery_body := response resp;
                     delivery_from := twilio_phone_number tw;
                     delivery_to :=
                       if startswith (from_number message) whatsapp_prefix
                       then from_number message
                       else (whatsapp_prefix ++ from_number message)%string |}]
          end |}).
Proof.
  intros Hrun.
  unfold process_whatsapp_message. unfold try_except at 1. unfold bind at 1.
  unfold lift_core at 1. rewrite Hrun. cbn [fst snd].
  unfold bind at 1.
  destruct (send_message_run (from_number message) (response resp)
              {| core := w'; attempts := attempts g |}) as (result & ->).
  unfold ret. destruct (client tw); reflexivity.
Qed.

(** The background task never raises. It runs [process_message] for the
    sender and the body of the message, and then calls the Twilio client
    at most once: with the text of that response, when there is a client,
    and not at all when there is none; the exchange is recorded in either
    case. *)
Theorem process_whatsapp_message_sends_the_response message g :
  let run := process_message settings chatbot (from_number message) (body message) in
  ∃ resp,
    eval run (core g) = Ok resp
    ∧ process_whatsapp_message settings chatbot tw message g
      = (Ok tt,
         {| core := exec run (core g);
            attempts :=
              match client tw with
              | None => attempts g
              | Some _ =>
                  attempts g
                  ++ [{| delivery_body := response resp;
                         delivery_from := twilio_phone_number tw;
                         delivery_to :=
                           if startswith (from_number message) whatsapp_prefix
                           then from_number message
                           else (whatsapp_prefix ++ from_number message)%string |}]
              end |}).
Proof.
  cbn zeta.
  destruct (process_message_total settings chatbot (from_number message)
              (body message) (core g)) as (resp & w' & Hrun).
  exists resp. unfold eval, exec. rewrite Hrun. split; [reflexivity|].
  by apply process_whatsapp_message_run.
Qed.
End Gateway.



